(** * Frame extraction backend: the planner, the prober and the extractor

  A shallow embedding of [video_to_frames.js] (the command-line tool) and
  of [server.js] (the upload server), with the properties of the sampling
  plan, of the decoder argument lists and of the way subprocess exit
  codes and malformed probe output surface.

  Conventions of the embedding:
  - a JavaScript number is a [JS.number]: NaN, the two infinities, the
    negative zero, or a finite value held as an exact rational.  The
    rounding, overflow and underflow of binary64 are outside the model;
  - a JavaScript string is a [string] of 8-bit characters; characters
    outside ASCII are outside the model;
  - a promise settled from an event handler is a [JS.outcome]: resolved,
    rejected, or left pending because the handler threw. *)

From Stdlib Require Import ZArith QArith Qround List String Ascii Bool Lia Lqa.
From Stdlib Require Import DecimalString.
From Stdlib Require DecimalZ DecimalPos.
Import ListNotations.

Set Warnings "-register-all".
Local Close Scope Q_scope.
Local Open Scope string_scope.
Local Open Scope list_scope.

(* ================================================================== *)
(** * The JavaScript values and built-ins the two files rely on *)
(* ================================================================== *)

Module JS.

(** ** Numbers *)

Inductive number : Type :=
| NaN
| Inf (negative : bool)      (* [Inf false] is Infinity, [Inf true] is -Infinity *)
| NegZero                    (* -0 *)
| Fin (q : Q).               (* a finite value; [Fin 0] is +0 *)

Definition of_Z (z : Z) : number := Fin (inject_Z z).

Definition is_nan (n : number) : bool :=
  match n with NaN => true | _ => false end.

Definition is_zero (n : number) : bool :=
  match n with
  | NegZero => true
  | Fin q => Qeq_bool q 0
  | _ => false
  end.

(** The sign bit. *)
Definition sign (n : number) : bool :=
  match n with
  | NaN => false
  | Inf s => s
  | NegZero => true
  | Fin q => (Qnum q <? 0)%Z
  end.

Definition zero (negative : bool) : number :=
  if negative then NegZero else Fin 0.

(** The rational a finite number stands for (0 for the others). *)
Definition to_Q (n : number) : Q :=
  match n with Fin q => q | _ => 0%Q end.

(** [a / b] on numbers. *)
Definition div (a b : number) : number :=
  match a, b with
  | NaN, _ => NaN
  | _, NaN => NaN
  | Inf _, Inf _ => NaN
  | Inf s, _ => Inf (xorb s (sign b))
  | _, Inf s => zero (xorb (sign a) s)
  | _, _ =>
      if is_zero b then
        if is_zero a then NaN else Inf (xorb (sign a) (sign b))
      else if is_zero a then zero (xorb (sign a) (sign b))
      else Fin (to_Q a / to_Q b)
  end.

(** [a < b] and [a <= b]: false as soon as one side is NaN; the two
    zeros compare equal. *)
Definition ltb (a b : number) : bool :=
  match a, b with
  | NaN, _ => false
  | _, NaN => false
  | Inf true, Inf true => false
  | Inf true, _ => true
  | _, Inf true => false
  | Inf false, _ => false
  | _, Inf false => true
  | _, _ => negb (Qle_bool (to_Q b) (to_Q a))
  end.

Definition leb (a b : number) : bool :=
  negb (is_nan a) && negb (is_nan b) && negb (ltb b a).

Definition le (a b : number) : Prop := leb a b = true.
Definition lt (a b : number) : Prop := ltb a b = true.

(** [Math.round]: the nearest integer, a tie going up; a result of zero
    reached from below is -0. *)
Definition Math_round (x : number) : number :=
  match x with
  | Fin q =>
      let z := Qfloor (q + (1 # 2)) in
      if (z =? 0)%Z && (Qnum q <? 0)%Z then NegZero else of_Z z
  | _ => x
  end.

(** [Math.ceil]. *)
Definition Math_ceil (x : number) : number :=
  match x with
  | Fin q =>
      let z := Qceiling q in
      if (z =? 0)%Z && (Qnum q <? 0)%Z then NegZero else of_Z z
  | _ => x
  end.

(** [Math.max(a, b)] and [Math.min(a, b)]: NaN as soon as one argument
    is; +0 counts as larger than -0. *)
Definition Math_max (a b : number) : number :=
  if is_nan a || is_nan b then NaN
  else if ltb a b then b
  else if ltb b a then a
  else match a with NegZero => b | _ => a end.

Definition Math_min (a b : number) : number :=
  if is_nan a || is_nan b then NaN
  else if ltb b a then b
  else if ltb a b then a
  else match b with NegZero => b | _ => a end.

(** [ToBoolean] on a number: NaN and the zeros are falsy. *)
Definition truthy (n : number) : bool :=
  negb (is_nan n || is_zero n).

(** A number-typed option that may be absent holds [undefined], which
    is falsy and converts to NaN. *)
Definition truthy_opt (m : option number) : bool :=
  match m with Some n => truthy n | None => false end.

Definition ToNumber_opt (m : option number) : number :=
  match m with Some n => n | None => NaN end.

(** ** Characters and digits *)

Definition code (c : ascii) : N := N_of_ascii c.

Definition is_digit (c : ascii) : bool :=
  ((48 <=? code c) && (code c <=? 57))%N.

Definition digit_value (c : ascii) : Z := (Z.of_N (code c) - 48)%Z.

(** The value of a hexadecimal digit, if [c] is one. *)
Definition hex_value (c : ascii) : option Z :=
  let n := code c in
  if ((48 <=? n) && (n <=? 57))%N then Some (Z.of_N n - 48)%Z
  else if ((65 <=? n) && (n <=? 70))%N then Some (Z.of_N n - 55)%Z
  else if ((97 <=? n) && (n <=? 102))%N then Some (Z.of_N n - 87)%Z
  else None.

(** White space and line terminators (the ASCII ones). *)
Definition is_space (c : ascii) : bool :=
  let n := code c in
  (((9 <=? n) && (n <=? 13)) || (n =? 32))%N.

Fixpoint drop_spaces (l : list ascii) : list ascii :=
  match l with
  | c :: l' => if is_space c then drop_spaces l' else l
  | [] => []
  end.

Definition trim (l : list ascii) : list ascii :=
  rev (drop_spaces (rev (drop_spaces l))).

(** The longest prefix of decimal digits, and what follows it. *)
Fixpoint span_digits (l : list ascii) : list ascii * list ascii :=
  match l with
  | c :: l' =>
      if is_digit c
      then let (d, r) := span_digits l' in (c :: d, r)
      else ([], l)
  | [] => ([], [])
  end.

Fixpoint span_hex (l : list ascii) : list Z * list ascii :=
  match l with
  | c :: l' =>
      match hex_value c with
      | Some v => let (d, r) := span_hex l' in (v :: d, r)
      | None => ([], l)
      end
  | [] => ([], [])
  end.

(** The integer a run of digits denotes in base [radix]. *)
Definition digits_to_Z (radix : Z) (ds : list Z) : Z :=
  fold_left (fun acc d => acc * radix + d)%Z ds 0%Z.

Definition decimal_to_Z (ds : list ascii) : Z :=
  digits_to_Z 10 (map digit_value ds).

(** [10 ^ e] for an exponent of either sign. *)
Definition pow10 (e : Z) : Q :=
  if (0 <=? e)%Z then inject_Z (10 ^ e)%Z
  else Qinv (inject_Z (10 ^ (- e))%Z).

(** A finite value with the given sign bit; a zero keeps its sign. *)
Definition signed (negative : bool) (q : Q) : number :=
  if Qeq_bool q 0 then zero negative
  else Fin (if negative then Qopp q else q).

(** ** Numbers to strings *)

Definition Z_to_string (z : Z) : string :=
  NilZero.string_of_int (Z.to_int z).

(** The digits of a fraction [0 <= n/d < 1], at most [fuel] of them. *)
Fixpoint fraction_digits (fuel : nat) (n d : Z) : string :=
  match fuel with
  | O => ""
  | S fuel' =>
      if (n =? 0)%Z then ""
      else Z_to_string (10 * n / d)%Z
             ++ fraction_digits fuel' ((10 * n) mod d)%Z d
  end.

(** [Number.prototype.toString()] and the conversion of a number inside
    a template literal.  Integers below 10^21 in magnitude print as
    their decimal digits, as in JavaScript.  The digits JavaScript
    prints for the other finite values are those of the nearest
    binary64 value, which the model does not have: they are rendered
    here as the decimal expansion, cut after 20 fraction digits. *)
Definition Number_toString (n : number) : string :=
  match n with
  | NaN => "NaN"
  | Inf false => "Infinity"
  | Inf true => "-Infinity"
  | NegZero => "0"
  | Fin q =>
      let a := Z.abs (Qnum q) in
      let d := Zpos (Qden q) in
      let frac := fraction_digits 20 (a mod d)%Z d in
      (if (Qnum q <? 0)%Z then "-" else "")
        ++ Z_to_string (a / d)%Z
        ++ (if String.eqb frac "" then "" else "." ++ frac)
  end.

(** ** Strings to numbers *)

(** [StrUnsignedDecimalLiteral] without the Infinity case: digits, an
    optional fraction, an optional exponent, and nothing after. *)
Definition unsigned_decimal (l : list ascii) : option Q :=
  let (ip, r1) := span_digits l in
  let '(fp, r2, dot) :=
    match r1 with
    | c :: r =>
        if Ascii.eqb c "." then let (f, r') := span_digits r in (f, r', true)
        else ([], r1, false)
    | [] => ([], r1, false)
    end in
  let mantissa_ok :=
    match ip, fp with
    | [], [] => false
    | _, _ => true
    end in
  let exponent :=
    match r2 with
    | [] => Some 0%Z
    | c :: r =>
        if Ascii.eqb c "e" || Ascii.eqb c "E" then
          let '(neg, r') :=
            match r with
            | s :: r'' =>
                if Ascii.eqb s "-" then (true, r'')
                else if Ascii.eqb s "+" then (false, r'')
                else (false, r)
            | [] => (false, r)
            end in
          match span_digits r' with
          | ((_ :: _) as ds, []) =>
              Some (if neg then (- decimal_to_Z ds)%Z else decimal_to_Z ds)
          | _ => None
          end
        else None
    end in
  match mantissa_ok, exponent with
  | true, Some e =>
      Some (inject_Z (decimal_to_Z (ip ++ fp))
            * pow10 (e - Z.of_nat (List.length fp)))%Q
  | _, _ => None
  end.

Definition Infinity_chars : list ascii := list_ascii_of_string "Infinity".

Definition list_ascii_eqb (a b : list ascii) : bool :=
  String.eqb (string_of_list_ascii a) (string_of_list_ascii b).

Definition unsigned_literal (negative : bool) (l : list ascii) : number :=
  if list_ascii_eqb l Infinity_chars then Inf negative
  else match unsigned_decimal l with
       | Some q => signed negative q
       | None => NaN
       end.

(** [0x], [0o] and [0b] literals, which take no sign. *)
Definition radix_literal (l : list ascii) : option number :=
  match l with
  | z :: x :: r =>
      if Ascii.eqb z "0" then
        let radix :=
          if Ascii.eqb x "x" || Ascii.eqb x "X" then Some 16%Z
          else if Ascii.eqb x "o" || Ascii.eqb x "O" then Some 8%Z
          else if Ascii.eqb x "b" || Ascii.eqb x "B" then Some 2%Z
          else None in
        match radix with
        | Some b =>
            match span_hex r with
            | ((_ :: _) as ds, []) =>
                if forallb (fun d => d <? b)%Z ds
                then Some (of_Z (digits_to_Z b ds))
                else Some NaN
            | _ => Some NaN
            end
        | None => None
        end
      else None
  | _ => None
  end.

(** [ToNumber] applied to a string ([StringToNumber]). *)
Definition StringToNumber (s : string) : number :=
  match trim (list_ascii_of_string s) with
  | [] => Fin 0
  | (c :: r) as l =>
      match radix_literal l with
      | Some n => n
      | None =>
          if Ascii.eqb c "-" then unsigned_literal true r
          else if Ascii.eqb c "+" then unsigned_literal false r
          else unsigned_literal false l
      end
  end.

(** An optional sign in front: whether it is a minus, and the rest. *)
Definition strip_sign (l : list ascii) : bool * list ascii :=
  match l with
  | c :: r =>
      if Ascii.eqb c "-" then (true, r)
      else if Ascii.eqb c "+" then (false, r)
      else (false, l)
  | [] => (false, l)
  end.

(** The radix [parseInt] settles on when given none, 16 after a [0x]
    prefix and 10 otherwise, with the longest run of digits of that
    radix. *)
Definition radix_digits (l : list ascii) : Z * list Z :=
  match l with
  | z :: x :: r =>
      if Ascii.eqb z "0" && (Ascii.eqb x "x" || Ascii.eqb x "X")
      then (16%Z, fst (span_hex r))
      else (10%Z, map digit_value (fst (span_digits l)))
  | _ => (10%Z, map digit_value (fst (span_digits l)))
  end.

(** [parseInt(s)] on a string, with no radix given: leading white space
    is skipped, then an optional sign, then an optional [0x], then the
    longest run of digits; no digit at all gives NaN. *)
Definition parseInt_string (s : string) : number :=
  let '(negative, l1) := strip_sign (drop_spaces (list_ascii_of_string s)) in
  let '(radix, ds) := radix_digits l1 in
  match ds with
  | [] => NaN
  | _ => signed negative (inject_Z (digits_to_Z radix ds))
  end.

(** [s.split(sep)] for a separator of one character. *)
Fixpoint split_chars (sep : ascii) (l : list ascii) : list (list ascii) :=
  match l with
  | [] => [[]]
  | c :: l' =>
      if Ascii.eqb c sep then [] :: split_chars sep l'
      else match split_chars sep l' with
           | w :: ws => (c :: w) :: ws
           | [] => [[c]]
           end
  end.

Definition String_split (s : string) (sep : ascii) : list string :=
  map string_of_list_ascii (split_chars sep (list_ascii_of_string s)).

(** ** Values *)

(** The values [JSON.parse] builds, and [undefined], which reading an
    absent property gives.  An object keeps its members in the order
    of the text. *)
Inductive value : Type :=
| Undefined
| Null
| Bool (b : bool)
| Num (n : number)
| Str (s : string)
| Arr (elements : list value)
| Obj (members : list (string * value)).

(** What a throwing built-in throws. *)
Inductive exn : Type :=
| SyntaxError
| TypeError.

(** An evaluation that completes with a value or throws. *)
Inductive completion (A : Type) : Type :=
| Normal (a : A)
| Throw (e : exn).
Arguments Normal {A} a.
Arguments Throw {A} e.

Definition bind {A B : Type} (c : completion A) (k : A -> completion B)
  : completion B :=
  match c with
  | Normal a => k a
  | Throw e => Throw e
  end.

Declare Scope js_scope.
Delimit Scope js_scope with js.
Notation "x <- c ;; k" := (bind c (fun x => k))
  (at level 61, c at next level, right associativity) : js_scope.

(** The last member named [key], as a repeated name overwrites. *)
Fixpoint lookup (key : string) (members : list (string * value)) : option value :=
  match members with
  | [] => None
  | (k, v) :: rest =>
      match lookup key rest with
      | Some v' => Some v'
      | None => if String.eqb k key then Some v else None
      end
  end.

(** [v.key] for a key that is neither an index nor the name of a
    built-in property ([streams], [r_frame_rate], [nb_frames]): reading
    a property of undefined or null throws, an object gives its member
    or undefined, every other value gives undefined. *)
Definition get (v : value) (key : string) : completion value :=
  match v with
  | Undefined | Null => Throw TypeError
  | Obj members =>
      Normal (match lookup key members with Some x => x | None => Undefined end)
  | _ => Normal Undefined
  end.

(** [v[i]] for an index [i]. *)
Definition get_index (v : value) (i : nat) : completion value :=
  match v with
  | Undefined | Null => Throw TypeError
  | Arr elements => Normal (nth i elements Undefined)
  | Obj members =>
      Normal (match lookup (Z_to_string (Z.of_nat i)) members with
              | Some x => x
              | None => Undefined
              end)
  | Str s =>
      Normal (match String.get i s with
              | Some c => Str (String c EmptyString)
              | None => Undefined
              end)
  | _ => Normal Undefined
  end.

(** [v.split(sep)]: only a string has the method; on undefined and
    null the property read throws, on any other value the call of a
    non-function does. *)
Definition call_split (v : value) (sep : ascii) : completion (list value) :=
  match v with
  | Str s => Normal (map Str (String_split s sep))
  | _ => Throw TypeError
  end.

(** [ToString]. *)
Fixpoint ToString (v : value) : string :=
  match v with
  | Undefined => "undefined"
  | Null => "null"
  | Bool true => "true"
  | Bool false => "false"
  | Num n => Number_toString n
  | Str s => s
  | Arr elements =>
      String.concat ","
        (map (fun e => match e with
                       | Undefined | Null => ""
                       | _ => ToString e
                       end) elements)
  | Obj _ => "[object Object]"
  end.

(** [ToNumber] on the values that reach a division in this program:
    the strings [split] returns and the undefined of a missing piece. *)
Definition ToNumber (v : value) : number :=
  match v with
  | Undefined => NaN
  | Null => Fin 0
  | Bool b => if b then of_Z 1 else Fin 0
  | Num n => n
  | Str s => StringToNumber s
  | Arr _ | Obj _ => StringToNumber (ToString v)
  end.

(** [parseInt(v)]. *)
Definition parseInt (v : value) : number := parseInt_string (ToString v).

(** ** JSON.parse *)

Definition is_json_space (c : ascii) : bool :=
  let n := code c in
  ((n =? 32) || (n =? 9) || (n =? 10) || (n =? 13))%N.

Fixpoint skip_ws (l : list ascii) : list ascii :=
  match l with
  | c :: l' => if is_json_space c then skip_ws l' else l
  | [] => []
  end.

Definition quote : ascii := "034"%char.
Definition backslash : ascii := "092"%char.

(** The characters of a string literal after its opening quote.  An
    escape [\uXXXX] below 128 gives that character; the others name a
    character outside ASCII and are kept as [?]. *)
Fixpoint json_chars (fuel : nat) (l : list ascii) : option (string * list ascii) :=
  match fuel with
  | O => None
  | S fuel' =>
      match l with
      | [] => None
      | c :: r =>
          if Ascii.eqb c quote then Some (EmptyString, r)
          else if Ascii.eqb c backslash then
            match r with
            | e :: r' =>
                let plain (x : ascii) :=
                  match json_chars fuel' r' with
                  | Some (s, rest) => Some (String x s, rest)
                  | None => None
                  end in
                if Ascii.eqb e quote then plain quote
                else if Ascii.eqb e backslash then plain backslash
                else if Ascii.eqb e "/" then plain "/"%char
                else if Ascii.eqb e "b" then plain "008"%char
                else if Ascii.eqb e "f" then plain "012"%char
                else if Ascii.eqb e "n" then plain "010"%char
                else if Ascii.eqb e "r" then plain "013"%char
                else if Ascii.eqb e "t" then plain "009"%char
                else if Ascii.eqb e "u" then
                  match r' with
                  | h1 :: h2 :: h3 :: h4 :: r'' =>
                      match hex_value h1, hex_value h2, hex_value h3, hex_value h4 with
                      | Some a, Some b, Some c', Some d =>
                          let n := (((a * 16 + b) * 16 + c') * 16 + d)%Z in
                          let x := if (n <? 128)%Z
                                   then ascii_of_N (Z.to_N n) else "?"%char in
                          match json_chars fuel' r'' with
                          | Some (s, rest) => Some (String x s, rest)
                          | None => None
                          end
                      | _, _, _, _ => None
                      end
                  | _ => None
                  end
                else None
            | [] => None
            end
          else if (code c <? 32)%N then None
          else match json_chars fuel' r with
               | Some (s, rest) => Some (String c s, rest)
               | None => None
               end
      end
  end.

(** A number token: [-]? digits (no leading zero) fraction? exponent? *)
Definition json_number (l : list ascii) : option (number * list ascii) :=
  let '(negative, l1) :=
    match l with
    | c :: r => if Ascii.eqb c "-" then (true, r) else (false, l)
    | [] => (false, l)
    end in
  let (ip, r1) := span_digits l1 in
  let int_ok :=
    match ip with
    | [] => false
    | [_] => true
    | c :: _ => negb (Ascii.eqb c "0")
    end in
  let frac :=
    match r1 with
    | c :: r =>
        if Ascii.eqb c "." then
          match span_digits r with
          | ([], _) => None
          | (fp, r') => Some (fp, r')
          end
        else Some ([], r1)
    | [] => Some ([], r1)
    end in
  match int_ok, frac with
  | true, Some (fp, r2) =>
      let mantissa := inject_Z (decimal_to_Z (ip ++ fp)) in
      let scale := (- Z.of_nat (List.length fp))%Z in
      let finish (e : Z) (rest : list ascii) :=
        Some (signed negative (mantissa * pow10 (e + scale))%Q, rest) in
      match r2 with
      | c :: r =>
          if Ascii.eqb c "e" || Ascii.eqb c "E" then
            let '(eneg, r') :=
              match r with
              | s :: r'' =>
                  if Ascii.eqb s "-" then (true, r'')
                  else if Ascii.eqb s "+" then (false, r'')
                  else (false, r)
              | [] => (false, r)
              end in
            match span_digits r' with
            | ([], _) => None
            | (ds, rest) =>
                finish (if eneg then (- decimal_to_Z ds)%Z else decimal_to_Z ds) rest
            end
          else finish 0%Z r2
      | [] => finish 0%Z r2
      end
  | _, _ => None
  end.

Definition strip_prefix (word : string) (l : list ascii) : option (list ascii) :=
  let w := list_ascii_of_string word in
  if list_ascii_eqb (firstn (List.length w) l) w
  then Some (skipn (List.length w) l) else None.

(** A value, then the elements of an array after its first [[], then
    the members of an object after its first [{]; each returns what is
    left of the text. *)
Fixpoint json_value (fuel : nat) (l : list ascii) : option (value * list ascii) :=
  match fuel with
  | O => None
  | S fuel' =>
      match skip_ws l with
      | [] => None
      | c :: r =>
          if Ascii.eqb c "{" then
            match skip_ws r with
            | c' :: r' =>
                if Ascii.eqb c' "}" then Some (Obj [], r')
                else json_members fuel' r []
            | [] => None
            end
          else if Ascii.eqb c "[" then
            match skip_ws r with
            | c' :: r' =>
                if Ascii.eqb c' "]" then Some (Arr [], r')
                else json_elements fuel' r []
            | [] => None
            end
          else if Ascii.eqb c quote then
            match json_chars (S (List.length r)) r with
            | Some (s, rest) => Some (Str s, rest)
            | None => None
            end
          else if Ascii.eqb c "t" then
            option_map (fun rest => (Bool true, rest)) (strip_prefix "rue" r)
          else if Ascii.eqb c "f" then
            option_map (fun rest => (Bool false, rest)) (strip_prefix "alse" r)
          else if Ascii.eqb c "n" then
            option_map (fun rest => (Null, rest)) (strip_prefix "ull" r)
          else
            match json_number (c :: r) with
            | Some (n, rest) => Some (Num n, rest)
            | None => None
            end
      end
  end
with json_elements (fuel : nat) (l : list ascii) (acc : list value)
  : option (value * list ascii) :=
  match fuel with
  | O => None
  | S fuel' =>
      match json_value fuel' l with
      | Some (v, r) =>
          match skip_ws r with
          | c :: r' =>
              if Ascii.eqb c "," then json_elements fuel' r' (v :: acc)
              else if Ascii.eqb c "]" then Some (Arr (rev (v :: acc)), r')
              else None
          | [] => None
          end
      | None => None
      end
  end
with json_members (fuel : nat) (l : list ascii) (acc : list (string * value))
  : option (value * list ascii) :=
  match fuel with
  | O => None
  | S fuel' =>
      match skip_ws l with
      | q :: r =>
          if Ascii.eqb q quote then
            match json_chars (S (List.length r)) r with
            | Some (k, r1) =>
                match skip_ws r1 with
                | colon :: r2 =>
                    if Ascii.eqb colon ":" then
                      match json_value fuel' r2 with
                      | Some (v, r3) =>
                          match skip_ws r3 with
                          | c :: r4 =>
                              if Ascii.eqb c ","
                              then json_members fuel' r4 ((k, v) :: acc)
                              else if Ascii.eqb c "}"
                              then Some (Obj (rev ((k, v) :: acc)), r4)
                              else None
                          | [] => None
                          end
                      | None => None
                      end
                    else None
                | [] => None
                end
            | None => None
            end
          else None
      | [] => None
      end
  end.

(** [JSON.parse(text)]: the value the whole text denotes, or a
    SyntaxError.  Every recursive call consumes a character, so twice
    the length of the text is fuel enough. *)
Definition JSON_parse (text : string) : completion value :=
  let l := list_ascii_of_string text in
  match json_value (2 * List.length l + 2) l with
  | Some (v, rest) =>
      match skip_ws rest with
      | [] => Normal v
      | _ => Throw SyntaxError
      end
  | None => Throw SyntaxError
  end.

(** ** path.join (POSIX) *)

(** The segments kept by [path.normalize], most recent first: empty
    segments and [.] are dropped, [..] removes the segment before it
    or, in a relative path with nothing to remove, is kept. *)
Definition normalize_segments (allowAboveRoot : bool) (segments : list string)
  : list string :=
  fold_left
    (fun stack seg =>
       if String.eqb seg "" || String.eqb seg "." then stack
       else if String.eqb seg ".." then
         match stack with
         | top :: rest =>
             if String.eqb top ".."
             then (if allowAboveRoot then seg :: stack else stack)
             else rest
         | [] => if allowAboveRoot then [seg] else []
         end
       else seg :: stack)
    segments [].

Definition last_char (s : string) : option ascii :=
  last (map Some (list_ascii_of_string s)) None.

Definition path_normalize (p : string) : string :=
  if String.eqb p "" then "."
  else
    let isAbsolute := String.prefix "/" p in
    let trailing :=
      match last_char p with Some c => Ascii.eqb c "/" | None => false end in
    let body :=
      String.concat "/"
        (rev (normalize_segments (negb isAbsolute) (String_split p "/"))) in
    if String.eqb body "" then
      if isAbsolute then "/" else if trailing then "./" else "."
    else ((if isAbsolute then "/" else "") ++ body
            ++ (if trailing then "/" else ""))%string.

(** [path.join(a, b)]: the non-empty arguments joined by [/], then
    normalized. *)
Definition path_join (a b : string) : string :=
  let joined :=
    if String.eqb a "" then b
    else if String.eqb b "" then a
    else (a ++ "/" ++ b)%string in
  path_normalize joined.

(** [array.splice(start, 0, ...items)] for a start within the array. *)
Definition splice_insert {A : Type} (l : list A) (start : nat) (items : list A)
  : list A :=
  firstn start l ++ items ++ skipn start l.

(** ** Promises settled by an event handler *)

Record Error : Type := { message : string }.

(** How the promise built around a child process ends once the handler
    of its [close] event has run: resolved, rejected, or still pending
    because the handler threw (the exception then reaches no [catch]). *)
Inductive outcome (A : Type) : Type :=
| Resolved (a : A)
| Rejected (e : Error)
| Uncaught (x : exn).
Arguments Resolved {A} a.
Arguments Rejected {A} e.
Arguments Uncaught {A} x.

(** The exit code the [close] event carries: an integer, or null when
    a signal ended the process. *)
Definition exit_code : Type := option Z.

(** [code === 0]. *)
Definition is_zero_code (code : exit_code) : bool :=
  match code with Some z => (z =? 0)%Z | None => false end.

(** [code] inside a template literal. *)
Definition exit_code_toString (code : exit_code) : string :=
  match code with Some z => Z_to_string z | None => "null" end.

(** ** Multiplication *)

(** [a * b] on numbers. *)
Definition mul (a b : number) : number :=
  match a, b with
  | NaN, _ => NaN
  | _, NaN => NaN
  | Inf s, _ => if is_zero b then NaN else Inf (xorb s (sign b))
  | _, Inf s => if is_zero a then NaN else Inf (xorb (sign a) s)
  | _, _ =>
      if is_zero a || is_zero b then zero (xorb (sign a) (sign b))
      else Fin (to_Q a * to_Q b)
  end.

(** ** path.extname (POSIX) *)

(** [s.slice(a, b)] for [0 <= a <= b <= s.length]. *)
Definition slice (s : string) (a b : Z) : string :=
  string_of_list_ascii
    (firstn (Z.to_nat (b - a)) (skipn (Z.to_nat a) (list_ascii_of_string s))).

(** The variables of the loop of [path.extname]; an index not yet set
    is -1. *)
Record ext_state : Type := {
  startDot : Z;
  startPart : Z;
  ext_end : Z;
  matchedSlash : bool;
  preDotState : Z
}.

(** The loop of [path.extname], from the last character to the first:
    [rev_chars] holds the characters at the indices [i], [i - 1], ...,
    0.  A slash met after the last component was entered ends it. *)
Fixpoint extname_loop (rev_chars : list ascii) (i : Z) (st : ext_state)
  : ext_state :=
  match rev_chars with
  | [] => st
  | c :: rest =>
      if Ascii.eqb c "/" then
        if negb (matchedSlash st) then
          {| startDot := startDot st; startPart := (i + 1)%Z;
             ext_end := ext_end st; matchedSlash := matchedSlash st;
             preDotState := preDotState st |}
        else extname_loop rest (i - 1)%Z st
      else
        let st1 :=
          if (ext_end st =? -1)%Z then
            {| startDot := startDot st; startPart := startPart st;
               ext_end := (i + 1)%Z; matchedSlash := false;
               preDotState := preDotState st |}
          else st in
        let st2 :=
          if Ascii.eqb c "." then
            if (startDot st1 =? -1)%Z then
              {| startDot := i; startPart := startPart st1;
                 ext_end := ext_end st1; matchedSlash := matchedSlash st1;
                 preDotState := preDotState st1 |}
            else if negb (preDotState st1 =? 1)%Z then
              {| startDot := startDot st1; startPart := startPart st1;
                 ext_end := ext_end st1; matchedSlash := matchedSlash st1;
                 preDotState := 1%Z |}
            else st1
          else if negb (startDot st1 =? -1)%Z then
            {| startDot := startDot st1; startPart := startPart st1;
               ext_end := ext_end st1; matchedSlash := matchedSlash st1;
               preDotState := (-1)%Z |}
          else st1 in
        extname_loop rest (i - 1)%Z st2
  end.

Definition ext_initial : ext_state :=
  {| startDot := (-1)%Z; startPart := 0%Z; ext_end := (-1)%Z;
     matchedSlash := true; preDotState := 0%Z |}.

(** [path.extname(path)]: from the last dot of the last component to
    its end, or the empty string when that component has no dot, starts
    with its only dot, or is [..]. *)
Definition path_extname (path : string) : string :=
  let chars := list_ascii_of_string path in
  let st :=
    extname_loop (rev chars) (Z.of_nat (List.length chars) - 1)%Z ext_initial in
  if (startDot st =? -1)%Z || (ext_end st =? -1)%Z || (preDotState st =? 0)%Z
     || ((preDotState st =? 1)%Z && (startDot st =? ext_end st - 1)%Z
         && (startDot st =? startPart st + 1)%Z)
  then ""
  else slice path (startDot st) (ext_end st).

End JS.


(* ================================================================== *)
(** * The machine around one run: the file system and the child processes *)
(* ================================================================== *)

Module Node.
Import JS.

(** What a run observes of its machine.  [child cmd args] is the exit
    code the [close] event of that child process carries, with all the
    child wrote on its standard output; a child is assumed to start.
    What the children write on their standard error is only logged by
    the two programs and is not modelled. *)
Record World : Type := {
  existsSync : string -> bool;
  mkdirSync : string -> option Error;   (* the error thrown, if it fails *)
  child : string -> list string -> exit_code * string
}.

(** What a run did and how its promise ended. *)
Record Run (A : Type) : Type := {
  created : list string;                   (* directories made *)
  spawned : list (string * list string);   (* commands started *)
  settled : outcome A
}.
Arguments created {A} r.
Arguments spawned {A} r.
Arguments settled {A} r.

End Node.

(* ================================================================== *)
(** * video_to_frames.js *)
(* ================================================================== *)

Module VideoToFrames.
Import JS Node.
Local Open Scope js_scope.

(** The options read from the command line: [percentage] is a number
    (100 when the option is absent), [maxFrames] a number or undefined. *)
Record Argv : Type := {
  input : string;
  output : string;
  percentage : number;
  maxFrames : option number
}.

Record VideoInfo : Type := {
  frameRate : number;
  totalFrames : number
}.

(** ** getVideoInfo *)

Definition ffprobeArgs (inputPath : string) : list string :=
  ["-v"; "error";
   "-select_streams"; "v:0";
   "-show_entries"; "stream=nb_frames,r_frame_rate";
   "-of"; "json";
   inputPath].

(** Lines 56 to 62: what the handler computes once the exit code is 0. *)
Definition read_info (output : string) : completion VideoInfo :=
  info <- JSON_parse output ;;
  streams <- get info "streams" ;;
  stream <- get_index streams 0 ;;
  r_frame_rate <- get stream "r_frame_rate" ;;
  parts <- call_split r_frame_rate "/" ;;
  let num := nth 0 parts Undefined in
  let den := nth 1 parts Undefined in
  let frameRate := div (ToNumber num) (ToNumber den) in
  nb_frames <- get stream "nb_frames" ;;
  let totalFrames := parseInt nb_frames in
  Normal {| frameRate := frameRate; totalFrames := totalFrames |}.

(** The handler of the [close] event of ffprobe, lines 50 to 63, with
    [output] all that ffprobe wrote. *)
Definition getVideoInfo_on_close (code : exit_code) (output : string)
  : outcome VideoInfo :=
  if negb (is_zero_code code) then
    Rejected {| message := "Failed to get video information" |}
  else
    match read_info output with
    | Normal info => Resolved info
    | Throw x => Uncaught x
    end.

Definition getVideoInfo (w : World) (inputPath : string) : Run VideoInfo :=
  let args := ffprobeArgs inputPath in
  let (code, output) := child w "ffprobe" args in
  {| created := [];
     spawned := [("ffprobe", args)];
     settled := getVideoInfo_on_close code output |}.

(** ** extractFrames *)

(** Lines 78 to 89: the argument list of ffmpeg. *)
Definition extractFrames_args (inputPath outputDir : string)
    (frameInterval : number) (maxFrames : option number) : list string :=
  let ffmpegArgs :=
    ["-i"; inputPath;
     "-vf"; ("select='not(mod(n," ++ Number_toString frameInterval ++ "))'")%string;
     "-vsync"; "0";
     "-frame_pts"; "1";
     "-f"; "image2";
     path_join outputDir "frame_%d.jpg"] in
  if truthy_opt maxFrames
  then splice_insert ffmpegArgs 2
         ["-vframes"; Number_toString (ToNumber_opt maxFrames)]
  else ffmpegArgs.

(** The handler of the [close] event of ffmpeg, lines 98 to 104. *)
Definition extractFrames_on_close (code : exit_code) : outcome unit :=
  if is_zero_code code then Resolved tt
  else Rejected {| message :=
         ("ffmpeg process exited with code " ++ exit_code_toString code)%string |}.

(** An async function: an exception of [mkdirSync] rejects its promise. *)
Definition extractFrames (w : World) (inputPath outputDir : string)
    (frameInterval : number) (maxFrames : option number) : Run unit :=
  let missing := negb (existsSync w outputDir) in
  match (if missing then mkdirSync w outputDir else None) with
  | Some e => {| created := []; spawned := []; settled := Rejected e |}
  | None =>
      let ffmpegArgs := extractFrames_args inputPath outputDir frameInterval maxFrames in
      {| created := if missing then [outputDir] else [];
         spawned := [("ffmpeg", ffmpegArgs)];
         settled := extractFrames_on_close (fst (child w "ffmpeg" ffmpegArgs)) |}
  end.

(** ** main *)

(** Line 114. *)
Definition frameInterval (argv : Argv) : number :=
  Math_max (of_Z 1) (Math_round (div (of_Z 100) (percentage argv))).

(** Lines 117 to 119. *)
Definition effectiveMaxFrames (argv : Argv) (totalFrames : number) : number :=
  if truthy_opt (maxFrames argv)
  then Math_min (ToNumber_opt (maxFrames argv))
                (Math_ceil (div totalFrames (frameInterval argv)))
  else Math_ceil (div totalFrames (frameInterval argv)).

(** How the process ends: normally, through [process.exit(1)] in the
    [catch] of [main], or on an exception no [catch] saw. *)
Inductive ending : Type :=
| Completed
| Exit1 (error_message : string)
| Crashed (x : exn).

Record MainRun : Type := {
  main_created : list string;
  main_spawned : list (string * list string);
  main_ending : ending
}.

Definition main (w : World) (argv : Argv) : MainRun :=
  let probe := getVideoInfo w (input argv) in
  match settled probe with
  | Resolved info =>
      let frameInterval := frameInterval argv in
      let effectiveMaxFrames := effectiveMaxFrames argv (totalFrames info) in
      let run := extractFrames w (input argv) (output argv)
                   frameInterval (Some effectiveMaxFrames) in
      {| main_created := created run;
         main_spawned := spawned probe ++ spawned run;
         main_ending :=
           match settled run with
           | Resolved _ => Completed
           | Rejected e => Exit1 (message e)
           | Uncaught x => Crashed x
           end |}
  | Rejected e =>
      {| main_created := []; main_spawned := spawned probe;
         main_ending := Exit1 (message e) |}
  | Uncaught x =>
      {| main_created := []; main_spawned := spawned probe;
         main_ending := Crashed x |}
  end.

End VideoToFrames.

(* ================================================================== *)
(** * server.js *)
(* ================================================================== *)

Module Server.
Import JS Node.
Local Open Scope js_scope.

Definition OUTPUT : string := "./frames".

Record VideoInfo : Type := {
  frameRate : number;
  totalFrames : number
}.

(** ** getVideoInfo *)

Definition ffprobeArgs (inputPath : string) : list string :=
  ["-v"; "error";
   "-select_streams"; "v:0";
   "-show_entries"; "stream=nb_frames,r_frame_rate";
   "-of"; "json";
   inputPath].

(** Lines 145 to 151. *)
Definition read_info (output : string) : completion VideoInfo :=
  info <- JSON_parse output ;;
  streams <- get info "streams" ;;
  stream <- get_index streams 0 ;;
  r_frame_rate <- get stream "r_frame_rate" ;;
  parts <- call_split r_frame_rate "/" ;;
  let num := nth 0 parts Undefined in
  let den := nth 1 parts Undefined in
  let frameRate := div (ToNumber num) (ToNumber den) in
  nb_frames <- get stream "nb_frames" ;;
  let totalFrames := parseInt nb_frames in
  Normal {| frameRate := frameRate; totalFrames := totalFrames |}.

(** The handler of the [close] event of ffprobe, lines 139 to 152. *)
Definition getVideoInfo_on_close (code : exit_code) (output : string)
  : outcome VideoInfo :=
  if negb (is_zero_code code) then
    Rejected {| message := "Failed to get video information" |}
  else
    match read_info output with
    | Normal info => Resolved info
    | Throw x => Uncaught x
    end.

Definition getVideoInfo (w : World) (inputPath : string) : Run VideoInfo :=
  let args := ffprobeArgs inputPath in
  let (code, output) := child w "ffprobe" args in
  {| created := [];
     spawned := [("ffprobe", args)];
     settled := getVideoInfo_on_close code output |}.

(** ** extractFrames *)

(** Lines 167 to 174: the argument list of ffmpeg; [maxFrames] is a
    parameter of the function and is not read. *)
Definition extractFrames_args (inputPath outputDir : string)
    (maxFrames : option number) : list string :=
  ["-i"; inputPath;
   "-vframes"; "200";
   "-vsync"; "0";
   "-frame_pts"; "1";
   "-f"; "image2";
   path_join outputDir "frame_%d.jpg"].

(** The handler of the [close] event of ffmpeg, lines 183 to 189. *)
Definition extractFrames_on_close (code : exit_code) : outcome unit :=
  if is_zero_code code then Resolved tt
  else Rejected {| message :=
         ("ffmpeg process exited with code " ++ exit_code_toString code)%string |}.

Definition extractFrames (w : World) (inputPath outputDir : string)
    (maxFrames : option number) : Run unit :=
  let missing := negb (existsSync w outputDir) in
  match (if missing then mkdirSync w outputDir else None) with
  | Some e => {| created := []; spawned := []; settled := Rejected e |}
  | None =>
      let ffmpegArgs := extractFrames_args inputPath outputDir maxFrames in
      {| created := if missing then [outputDir] else [];
         spawned := [("ffmpeg", ffmpegArgs)];
         settled := extractFrames_on_close (fst (child w "ffmpeg" ffmpegArgs)) |}
  end.

(** ** The upload route *)

(** [req.file], as multer leaves it. *)
Record File : Type := {
  filename : string;
  originalname : string;
  size : Z;
  mimetype : string;
  path : string
}.

Inductive response : Type :=
| NoFileUploaded                 (* status 400 *)
| Uploaded (file : File).        (* status 200, sent before any probing *)

(** Line 94. *)
Definition upload_extract (w : World) (file : File) (info : VideoInfo) : Run unit :=
  extractFrames w (path file) OUTPUT (Some (totalFrames info)).

(** Lines 68 to 99: the response, then the probe, then the extraction
    when the probe resolved.  What the [catch] does with a probe or an
    extraction that was rejected (a log, and a second response on a
    request already answered) is not modelled. *)
Definition upload (w : World) (file : option File)
  : response * option (Run VideoInfo) * option (Run unit) :=
  match file with
  | None => (NoFileUploaded, None, None)
  | Some f =>
      let probe := getVideoInfo w (path f) in
      (Uploaded f, Some probe,
       match settled probe with
       | Resolved info => Some (upload_extract w f info)
       | _ => None
       end)
  end.

(** ** The storage of uploads *)

(** Line 15. *)
Definition storage_destination : string := "uploads/".

(** Line 19, with the value of [Date.now()] and of [Math.random()]. *)
Definition uniqueSuffix (now : Z) (random : Q) : string :=
  (Number_toString (of_Z now) ++ "-"
   ++ Number_toString (Math_round (mul (Fin random) (of_Z 1000000000))))%string.

(** Line 20: the name under which an upload is stored. *)
Definition storage_filename (fieldname originalname : string)
    (now : Z) (random : Q) : string :=
  (fieldname ++ "-" ++ uniqueSuffix now random ++ path_extname originalname)%string.

(** ** The filter of uploads, lines 30 to 46 *)

Definition allowedMimes : list string :=
  ["video/mp4";
   "video/webm";
   "video/ogg";
   "video/quicktime";
   "video/x-msvideo";
   "video/x-matroska"].

(** What the filter hands to its callback: [cb(null, true)] or
    [cb(error)]. *)
Inductive filter_result : Type :=
| Accepted
| Refused (e : Error).

Definition fileFilter (mimetype : string) : filter_result :=
  if existsb (String.eqb mimetype) allowedMimes
  then Accepted
  else Refused {| message := "Invalid file type. Only video files are allowed." |}.

(** Line 28. *)
Definition fileSize_limit : Z := (1024 * 1024 * 1024)%Z.

(** ** The error-handling middleware, lines 102 to 114 *)

(** What the middleware reads of the error it is given: whether it is
    a [MulterError], its [code] and its [message], each possibly
    missing. *)
Record RaisedError : Type := {
  isMulterError : bool;
  error_code : option string;
  error_message : option string
}.

(** A plain [Error] as the middleware sees it. *)
Definition raised (e : Error) : RaisedError :=
  {| isMulterError := false; error_code := None;
     error_message := Some (message e) |}.

(** [error.message || 'Internal server error']. *)
Definition message_or_default (m : option string) : string :=
  match m with
  | Some text => if String.eqb text "" then "Internal server error" else text
  | None => "Internal server error"
  end.

(** The status and the [error] member of the answer. *)
Definition error_middleware (error : RaisedError) : Z * string :=
  if isMulterError error
     && match error_code error with
        | Some c => String.eqb c "LIMIT_FILE_SIZE"
        | None => false
        end
  then (400%Z, "File size too large. Maximum size is 1GB")
  else (500%Z, message_or_default (error_message error)).

End Server.

(* ================================================================== *)
(** * Inputs for the examples *)
(* ================================================================== *)

Module Payload.
Import JS.

Definition quoted (s : string) : string :=
  (String quote s ++ String quote EmptyString)%string.

(** [{"streams":[{"r_frame_rate":R,"nb_frames":N}]}] with [R] and [N]
    given as strings. *)
Definition report (r_frame_rate nb_frames : string) : string :=
  ("{" ++ quoted "streams" ++ ":[{"
      ++ quoted "r_frame_rate" ++ ":" ++ quoted r_frame_rate ++ ","
      ++ quoted "nb_frames" ++ ":" ++ quoted nb_frames ++ "}]}")%string.

(** The same without the [nb_frames] member. *)
Definition report_without_nb_frames (r_frame_rate : string) : string :=
  ("{" ++ quoted "streams" ++ ":[{"
      ++ quoted "r_frame_rate" ++ ":" ++ quoted r_frame_rate ++ "}]}")%string.


(** Command lines for the examples. *)
Definition argv_of (percentage : number) (maxFrames : option number)
  : VideoToFrames.Argv :=
  {| VideoToFrames.input := "in.mp4";
     VideoToFrames.output := "./frames";
     VideoToFrames.percentage := percentage;
     VideoToFrames.maxFrames := maxFrames |}.

(** A machine where the output directory is missing and can be made,
    ffprobe exits with [code] after writing [output], and ffmpeg exits
    with 0. *)
Definition machine (code : exit_code) (output : string) : Node.World :=
  {| Node.existsSync := fun _ => false;
     Node.mkdirSync := fun _ => None;
     Node.child := fun cmd _ =>
       if String.eqb cmd "ffprobe" then (code, output) else (Some 0%Z, "") |}.

(** A machine where the output directory is there, ffprobe exits with
    0 after a report of 1000 frames at 30 frames a second, and ffmpeg
    exits with [code]. *)
Definition machine_with_ffmpeg (code : exit_code) : Node.World :=
  {| Node.existsSync := fun _ => true;
     Node.mkdirSync := fun _ => None;
     Node.child := fun cmd _ =>
       if String.eqb cmd "ffprobe" then (Some 0%Z, report "30/1" "1000")
       else (code, "") |}.


End Payload.

(* ================================================================== *)
(** * The notions the statements below are written with *)
(* ================================================================== *)

Module Notions.
Import JS.

(** The interval as a formula on rationals: [100 / q] rounded to the
    nearest integer, a tie going up. *)
Definition interval_of (q : Q) : Z := Qfloor (100 / q + (1 # 2)).

(** [ceil(t / k)] as a formula on rationals. *)
Definition ceil_div (t k : Z) : Z := Qceiling (inject_Z t / inject_Z k).


(** [needle] occurs somewhere in [hay]. *)
Fixpoint occurs (needle hay : string) : bool :=
  String.prefix needle hay
  || match hay with
     | EmptyString => false
     | String _ hay' => occurs needle hay'
     end.

(** An error carries an exit code when the text of the code occurs in
    its message. *)
Definition carries_code (e : Error) (code : exit_code) : bool :=
  occurs (exit_code_toString code) (message e).

(** A string with no digit where [parseInt] looks for the first one:
    after the leading white space and an optional sign. *)
Definition non_numeric (s : string) : bool :=
  match snd (strip_sign (drop_spaces (list_ascii_of_string s))) with
  | [] => true
  | d :: _ => negb (is_digit d)
  end.

(** The members of [streams[0]] when the output of the prober is an
    object whose [streams] is an array starting with an object. *)
Definition first_stream (output : string) : option (list (string * value)) :=
  match JSON_parse output with
  | Normal (Obj members) =>
      match lookup "streams" members with
      | Some (Arr (Obj stream :: _)) => Some stream
      | _ => None
      end
  | _ => None
  end.

(** A character that stands for itself inside a JSON string literal,
    and a string made of such characters. *)
Definition plain (c : ascii) : bool :=
  negb (Ascii.eqb c quote) && negb (Ascii.eqb c backslash)
  && negb (code c <? 32)%N.

Definition plain_string (s : string) : bool :=
  forallb plain (list_ascii_of_string s).

(** A string with no slash in it. *)
Definition no_slash (s : string) : bool :=
  forallb (fun c => negb (Ascii.eqb c "/")) (list_ascii_of_string s).

(** The member [key] of an object, undefined when it has none. *)
Definition field (key : string) (members : list (string * value)) : value :=
  match lookup key members with
  | Some v => v
  | None => Undefined
  end.

(** The output directory is there, or can be made. *)
Definition directory_ready (w : Node.World) (dir : string) : bool :=
  Node.existsSync w dir
  || match Node.mkdirSync w dir with
     | None => true
     | Some _ => false
     end.

(** What [num / den] gives for the pieces of [r] around its slashes. *)
Definition rate_of (r : string) : number :=
  let parts := map Str (String_split r "/") in
  div (ToNumber (nth 0 parts Undefined)) (ToNumber (nth 1 parts Undefined)).

(** A string with no dot in it. *)
Definition no_dot (s : string) : bool :=
  forallb (fun c => negb (Ascii.eqb c ".")) (list_ascii_of_string s).



(** A path segment that [path.normalize] keeps as it is. *)
Definition plain_segment (s : string) : bool :=
  negb (String.eqb s "") && negb (String.eqb s ".") && negb (String.eqb s "..").

(** A directory written as plain segments between single slashes, with
    or without a slash in front and with none at the end. *)
Definition clean_directory (o : string) : bool :=
  match String_split o "/" with
  | first :: rest =>
      (plain_segment first
       || (String.eqb first "" && negb (Nat.eqb (List.length rest) 0)))
      && forallb plain_segment rest
  | [] => false
  end.

(** The lists put back together around a separator. *)
Fixpoint join_chars (sep : ascii) (ls : list (list ascii)) : list ascii :=
  match ls with
  | [] => []
  | [l] => l
  | l :: ls' => l ++ sep :: join_chars sep ls'
  end.


(** A list of characters without the character [sep]. *)
Definition free_of (sep : ascii) (l : list ascii) : bool :=
  forallb (fun c => negb (Ascii.eqb c sep)) l.



(** Once the loop has met a dot with something after it, and a
    character that is no slash before that dot, the rest of the path
    no longer moves the dot nor the end, and leaves [preDotState] at 1
    or -1. *)
Definition ext_settled (d e : Z) (st : ext_state) : Prop :=
  startDot st = d /\ ext_end st = e /\ matchedSlash st = false
  /\ (preDotState st = 1%Z \/ preDotState st = (-1)%Z).


End Notions.

(* ================================================================== *)
(** * Facts about numbers *)
(* ================================================================== *)

Module NumberFacts.
Import JS.

Lemma ltb_Fin (a b : Q) : ltb (Fin a) (Fin b) = negb (Qle_bool b a).
Proof. reflexivity. Qed.

Lemma leb_Fin (a b : Q) : leb (Fin a) (Fin b) = Qle_bool a b.
Proof.
  unfold leb. rewrite ltb_Fin. simpl. apply negb_involutive.
Qed.

Lemma le_Fin (a b : Q) : le (Fin a) (Fin b) <-> (a <= b)%Q.
Proof.
  unfold le. rewrite leb_Fin. apply Qle_bool_iff.
Qed.

Lemma le_of_Z (a b : Z) : le (of_Z a) (of_Z b) <-> (a <= b)%Z.
Proof.
  unfold of_Z. rewrite le_Fin, <- Zle_Qle. reflexivity.
Qed.

Lemma Qle_bool_flip (x y : Q) :
  negb (Qle_bool x y) = true -> negb (Qle_bool y x) = false.
Proof.
  intros H. apply negb_true_iff in H. apply negb_false_iff.
  apply Qle_bool_iff. apply Qlt_le_weak. apply Qnot_le_lt.
  intros C. apply Qle_bool_iff in C. congruence.
Qed.

Lemma Qle_bool_refl (x : Q) : Qle_bool x x = true.
Proof. apply Qle_bool_iff. apply Qle_refl. Qed.

Lemma ltb_irrefl (a : number) : ltb a a = false.
Proof.
  destruct a as [ | [ | ] | | q ]; simpl; try reflexivity.
  rewrite Qle_bool_refl. reflexivity.
Qed.

Lemma ltb_asym (a b : number) : ltb a b = true -> ltb b a = false.
Proof.
  destruct a as [ | [ | ] | | qa ], b as [ | [ | ] | | qb ]; simpl;
    try reflexivity; try discriminate; apply Qle_bool_flip.
Qed.

Lemma ltb_not_nan_l (a b : number) : ltb a b = true -> is_nan a = false.
Proof. destruct a; simpl; [ discriminate | reflexivity .. ]. Qed.


Lemma le_refl (a : number) : is_nan a = false -> le a a.
Proof.
  intros Ha. unfold le, leb. now rewrite Ha, ltb_irrefl.
Qed.

Lemma lt_le (a b : number) : ltb a b = true -> is_nan b = false -> le a b.
Proof.
  intros H Hb. unfold le, leb.
  now rewrite (ltb_not_nan_l _ _ H), Hb, (ltb_asym _ _ H).
Qed.

Lemma not_lt_le (a b : number) :
  is_nan a = false -> is_nan b = false -> ltb b a = false -> le a b.
Proof.
  intros Ha Hb H. unfold le, leb. now rewrite Ha, Hb, H.
Qed.


Lemma Math_min_le_r (a b : number) :
  is_nan a = false -> is_nan b = false -> le (Math_min a b) b.
Proof.
  intros Ha Hb. unfold Math_min. rewrite Ha, Hb. simpl.
  destruct (ltb b a) eqn:Hba; [ now apply le_refl | ].
  destruct (ltb a b) eqn:Hab; [ now apply lt_le | ].
  destruct b; now apply not_lt_le.
Qed.




Lemma truthy_not_nan (n : number) : truthy n = true -> is_nan n = false.
Proof. destruct n; simpl; [ discriminate | reflexivity .. ]. Qed.

Lemma Qeq_bool_pos (q : Q) : (0 < q)%Q -> Qeq_bool q 0 = false.
Proof.
  intros H. destruct (Qeq_bool q 0) eqn:E; [ | reflexivity ].
  apply Qeq_bool_iff in E. rewrite E in H. now apply Qlt_irrefl in H.
Qed.

Lemma inject_Z_pos (k : Z) : (0 < k)%Z -> (0 < inject_Z k)%Q.
Proof.
  intros H. change (inject_Z 0 < inject_Z k)%Q. rewrite <- Zlt_Qlt. exact H.
Qed.

Lemma div_Fin (a b : Q) :
  Qeq_bool a 0 = false -> Qeq_bool b 0 = false ->
  div (Fin a) (Fin b) = Fin (a / b).
Proof.
  intros Ha Hb. unfold div, is_zero. rewrite Ha, Hb. reflexivity.
Qed.

Lemma div_zero_of_Z (k : Z) : (1 <= k)%Z -> div (of_Z 0) (of_Z k) = of_Z 0.
Proof.
  intros Hk. unfold div, of_Z, is_zero.
  rewrite (Qeq_bool_pos (inject_Z k)).
  - replace (Qeq_bool (inject_Z 0) 0) with true by reflexivity.
    unfold sign. simpl Qnum.
    destruct (Z.ltb_spec k 0); [ lia | ].
    destruct (Z.ltb_spec 0 0); [ lia | reflexivity ].
  - apply inject_Z_pos. lia.
Qed.

(** A denominator that is a zero never gives a finite quotient. *)
Lemma div_by_zero (a b : number) :
  is_zero b = true ->
  div a b = NaN \/ exists negative, div a b = Inf negative.
Proof.
  intros Hb.
  destruct a as [ | sa | | qa ], b as [ | sb | | qb ];
    simpl in Hb; try discriminate; unfold div, is_zero;
    try rewrite Hb; eauto.
  - destruct (Qeq_bool qa 0); eauto.
  - destruct (Qeq_bool qa 0); eauto.
Qed.

End NumberFacts.

(* ================================================================== *)
(** * The sampling plan of the command-line tool *)
(* ================================================================== *)

Module PlannerFacts.
Import JS NumberFacts VideoToFrames Notions Payload.

Lemma ceil_div_ge_1 (t k : Z) : (0 < t)%Z -> (1 <= k)%Z -> (1 <= ceil_div t k)%Z.
Proof.
  intros Ht Hk. unfold ceil_div.
  assert (H : (0 < inject_Z t / inject_Z k)%Q).
  { apply Qlt_shift_div_l.
    - apply inject_Z_pos. lia.
    - rewrite Qmult_0_l. apply inject_Z_pos. lia. }
  assert (H' : (inject_Z 0 < inject_Z (Qceiling (inject_Z t / inject_Z k)))%Q).
  { eapply Qlt_le_trans; [ exact H | apply Qle_ceiling ]. }
  rewrite <- Zlt_Qlt in H'. lia.
Qed.

Lemma ceil_div_0 (k : Z) : ceil_div 0 k = 0%Z.
Proof.
  unfold ceil_div.
  assert (E : (inject_Z 0 / inject_Z k == inject_Z 0)%Q).
  { unfold Qdiv. apply Qmult_0_l. }
  rewrite E. apply Qceiling_Z.
Qed.

Lemma Math_round_ge_1 (r : Q) :
  (1 <= Qfloor (r + (1 # 2)))%Z ->
  Math_round (Fin r) = of_Z (Qfloor (r + (1 # 2))).
Proof.
  intros H. unfold Math_round.
  destruct (Z.eqb_spec (Qfloor (r + (1 # 2))) 0); [ lia | reflexivity ].
Qed.

Lemma Math_max_1 (z : Z) : (1 <= z)%Z -> Math_max (of_Z 1) (of_Z z) = of_Z z.
Proof.
  intros H. unfold Math_max, of_Z. simpl is_nan. simpl orb. cbv iota.
  rewrite !ltb_Fin.
  destruct (Qle_bool (inject_Z z) (inject_Z 1)) eqn:E; simpl.
  - apply Qle_bool_iff in E. rewrite <- Zle_Qle in E.
    replace z with 1%Z by lia.
    destruct (Qle_bool (inject_Z 1) (inject_Z 1)); reflexivity.
  - reflexivity.
Qed.

Lemma Math_ceil_div (t k : Z) :
  (0 <= t)%Z -> (1 <= k)%Z ->
  Math_ceil (div (of_Z t) (of_Z k)) = of_Z (ceil_div t k).
Proof.
  intros Ht Hk. destruct (Z.eq_dec t 0) as [-> | Hne].
  - rewrite div_zero_of_Z by assumption. rewrite ceil_div_0. reflexivity.
  - unfold of_Z at 1 2. rewrite div_Fin.
    + pose proof (ceil_div_ge_1 t k ltac:(lia) Hk) as H.
      unfold ceil_div in *. unfold Math_ceil.
      destruct (Z.eqb_spec (Qceiling (inject_Z t / inject_Z k)) 0);
        [ lia | reflexivity ].
    + apply Qeq_bool_pos, inject_Z_pos. lia.
    + apply Qeq_bool_pos, inject_Z_pos. lia.
Qed.


Lemma effectiveMaxFrames_capped (argv : Argv) (cap total : number) :
  maxFrames argv = Some cap -> truthy cap = true ->
  effectiveMaxFrames argv total
  = Math_min cap (Math_ceil (div total (frameInterval argv))).
Proof.
  intros Hm Ht. unfold effectiveMaxFrames. rewrite Hm. simpl.
  rewrite Ht. reflexivity.
Qed.

Lemma effectiveMaxFrames_uncapped (argv : Argv) (total : number) :
  truthy_opt (maxFrames argv) = false ->
  effectiveMaxFrames argv total
  = Math_ceil (div total (frameInterval argv)).
Proof.
  intros Hm. unfold effectiveMaxFrames. rewrite Hm. reflexivity.
Qed.

(** The examples of the planner: 1000 frames at 100 percent, at 10
    percent, at 10 percent capped at 50, and 30 frames at 25 percent. *)
Example plan_examples :
  frameInterval (argv_of (of_Z 100) None) = of_Z 1
  /\ effectiveMaxFrames (argv_of (of_Z 100) None) (of_Z 1000) = of_Z 1000
  /\ frameInterval (argv_of (of_Z 10) None) = of_Z 10
  /\ effectiveMaxFrames (argv_of (of_Z 10) None) (of_Z 1000) = of_Z 100
  /\ effectiveMaxFrames (argv_of (of_Z 10) (Some (of_Z 50))) (of_Z 1000) = of_Z 50
  /\ frameInterval (argv_of (of_Z 25) None) = of_Z 4
  /\ effectiveMaxFrames (argv_of (of_Z 25) None) (of_Z 30) = of_Z 8.
Proof. repeat split; vm_compute; reflexivity. Qed.

(** Percentages that are not whole: 0.5 percent gives every 200th
    frame, 40 percent gives round(2.5) = 3, 80 percent gives
    round(1.25) = 1. *)
Example fractional_percentages :
  frameInterval (argv_of (Fin (1 # 2)) None) = of_Z 200
  /\ frameInterval (argv_of (of_Z 40) None) = of_Z 3
  /\ frameInterval (argv_of (of_Z 80) None) = of_Z 1.
Proof. repeat split; vm_compute; reflexivity. Qed.

(** ** A percentage in (0, 100] *)

Section InRange.

Variable argv : Argv.
Variable q : Q.
Hypothesis percentage_is : percentage argv = Fin q.
Hypothesis percentage_pos : (0 < q)%Q.
Hypothesis percentage_le : (q <= 100)%Q.

Lemma interval_of_ge_1 : (1 <= interval_of q)%Z.
Proof.
  unfold interval_of.
  rewrite <- (Qfloor_Z 1). apply Qfloor_resp_le.
  apply Qle_trans with (100 / q)%Q.
  - apply Qle_shift_div_l; [ assumption | ].
    rewrite Qmult_1_l. assumption.
  - rewrite <- (Qplus_0_r (100 / q)) at 1.
    apply Qplus_le_r. discriminate.
Qed.

(** What line 114 computes. *)
Lemma frameInterval_eq : frameInterval argv = of_Z (interval_of q).
Proof.
  unfold frameInterval. rewrite percentage_is.
  unfold of_Z at 2. rewrite div_Fin.
  - change (inject_Z 100) with 100%Q.
    rewrite Math_round_ge_1 by apply interval_of_ge_1.
    apply Math_max_1. apply interval_of_ge_1.
  - reflexivity.
  - apply Qeq_bool_pos. assumption.
Qed.

(** What lines 117 to 119 compute when the cap is not used. *)
Lemma uncapped_eq (t : Z) :
  (0 <= t)%Z ->
  Math_ceil (div (of_Z t) (frameInterval argv))
  = of_Z (ceil_div t (interval_of q)).
Proof.
  intros Ht. rewrite frameInterval_eq.
  apply Math_ceil_div; [ assumption | apply interval_of_ge_1 ].
Qed.




End InRange.

(** ** The theorems at work, and where the spec goes wrong *)





(** A supplied cap below 1 also breaks the lower bound. *)
Example plan_cap_below_one :
  effectiveMaxFrames (argv_of (of_Z 25) (Some (of_Z (-3)))) (of_Z 30) = of_Z (-3).
Proof. vm_compute; reflexivity. Qed.


End PlannerFacts.


(* ================================================================== *)
(** * Facts about strings *)
(* ================================================================== *)

Module StringFacts.
Import JS Notions.

Lemma append_nil_r (s : string) : (s ++ "")%string = s.
Proof.
  induction s as [ | c s IH ]; simpl; [ reflexivity | now rewrite IH ].
Qed.

Lemma prefix_refl (s : string) : String.prefix s s = true.
Proof.
  induction s as [ | c s IH ]; simpl; [ reflexivity | ].
  destruct (ascii_dec c c); [ exact IH | congruence ].
Qed.

Lemma occurs_eq (needle hay : string) :
  occurs needle hay
  = String.prefix needle hay
    || match hay with
       | EmptyString => false
       | String _ hay' => occurs needle hay'
       end.
Proof. destruct hay; reflexivity. Qed.

Lemma occurs_append (p s : string) : occurs s (p ++ s) = true.
Proof.
  induction p as [ | c p IH ].
  - change (occurs s s = true). now rewrite occurs_eq, prefix_refl.
  - change (occurs s (String c (p ++ s)) = true).
    rewrite occurs_eq, IH. apply orb_true_r.
Qed.

(** The decimal text of an integer determines it. *)
Lemma Z_to_string_inj (a b : Z) : Z_to_string a = Z_to_string b -> a = b.
Proof.
  unfold Z_to_string. intros H.
  apply DecimalZ.to_int_inj.
  assert (N : forall z, Z.to_int z <> Decimal.Pos Decimal.Nil
                        /\ Z.to_int z <> Decimal.Neg Decimal.Nil).
  { intros z. destruct z as [ | p | p ]; simpl; split; try discriminate;
      intros C; injection C as C; now apply DecimalPos.Unsigned.to_uint_nonnil in C. }
  pose proof (NilZero.isi (Z.to_int a) (proj1 (N a)) (proj2 (N a))) as Ea.
  pose proof (NilZero.isi (Z.to_int b) (proj1 (N b)) (proj2 (N b))) as Eb.
  rewrite H in Ea. congruence.
Qed.

Lemma Z_to_string_not_null (z : Z) : Z_to_string z <> "null".
Proof.
  unfold Z_to_string.
  destruct (Z.to_int z) as [ d | d ]; simpl.
  - destruct d; simpl; discriminate.
  - discriminate.
Qed.

Lemma exit_code_toString_inj (c1 c2 : exit_code) :
  exit_code_toString c1 = exit_code_toString c2 -> c1 = c2.
Proof.
  destruct c1 as [ a | ], c2 as [ b | ]; simpl; intros H.
  - f_equal. now apply Z_to_string_inj.
  - now apply Z_to_string_not_null in H.
  - symmetry in H. now apply Z_to_string_not_null in H.
  - reflexivity.
Qed.


Lemma is_digit_not_zero_char (c : ascii) :
  is_digit c = false -> Ascii.eqb c "0" = false.
Proof.
  intros H. destruct (Ascii.eqb_spec c "0"); [ subst; discriminate H | reflexivity ].
Qed.

Lemma span_digits_none (c : ascii) (l : list ascii) :
  is_digit c = false -> span_digits (c :: l) = ([], c :: l).
Proof. intros H. simpl. now rewrite H. Qed.

(** No digit in first place: [parseInt] finds no digits at all. *)
Lemma radix_digits_none (l : list ascii) :
  match l with [] => True | d :: _ => is_digit d = false end ->
  snd (radix_digits l) = [].
Proof.
  destruct l as [ | d l ]; intros H; [ reflexivity | ].
  unfold radix_digits.
  rewrite (is_digit_not_zero_char d H).
  destruct l as [ | x r ]; simpl andb; cbv iota;
    rewrite (span_digits_none d _ H); reflexivity.
Qed.

Lemma parseInt_non_numeric (s : string) :
  non_numeric s = true -> parseInt_string s = NaN.
Proof.
  unfold non_numeric, parseInt_string.
  destruct (strip_sign (drop_spaces (list_ascii_of_string s))) as [negative l1].
  simpl snd. intros H.
  assert (E : snd (radix_digits l1) = []).
  { apply radix_digits_none. destruct l1 as [ | d l ]; [ exact I | ].
    now apply negb_true_iff. }
  destruct (radix_digits l1) as [radix ds]. simpl in E. now rewrite E.
Qed.

End StringFacts.

(* ================================================================== *)
(** * Parsing the reports of the prober *)
(* ================================================================== *)

Module ReportFacts.
Import JS Notions Payload.

Lemma list_ascii_of_string_app (a b : string) :
  list_ascii_of_string (a ++ b)
  = list_ascii_of_string a ++ list_ascii_of_string b.
Proof.
  induction a as [ | c a IH ]; simpl; [ reflexivity | now rewrite IH ].
Qed.

(** A literal of plain characters reads as itself, given fuel for each
    of its characters and one more. *)
Lemma json_chars_plain (s : string) :
  forall (fuel : nat) (rest : list ascii),
    plain_string s = true ->
    (List.length (list_ascii_of_string s) < fuel)%nat ->
    json_chars fuel (list_ascii_of_string s ++ quote :: rest) = Some (s, rest).
Proof.
  induction s as [ | c s IH ]; intros fuel rest Hp Hf;
    (destruct fuel as [ | fuel ]; [ simpl in Hf; lia | ]).
  - reflexivity.
  - unfold plain_string in Hp. simpl in Hp.
    apply andb_true_iff in Hp. destruct Hp as [Hc Hs].
    unfold plain in Hc.
    apply andb_true_iff in Hc. destruct Hc as [Hc H32].
    apply andb_true_iff in Hc. destruct Hc as [Hq Hb].
    apply negb_true_iff in Hq, Hb, H32.
    simpl list_ascii_of_string. simpl app. cbn [json_chars].
    rewrite Hq, Hb, H32.
    rewrite IH; [ reflexivity | exact Hs | simpl in Hf; lia ].
Qed.

(** Splitting at the first separator. *)
Lemma split_chars_at (sep : ascii) (l1 l2 : list ascii) :
  forallb (fun c => negb (Ascii.eqb c sep)) l1 = true ->
  split_chars sep (l1 ++ sep :: l2) = l1 :: split_chars sep l2.
Proof.
  induction l1 as [ | c l1 IH ]; simpl; intros H.
  - now rewrite Ascii.eqb_refl.
  - apply andb_true_iff in H. destruct H as [Hc Hl].
    apply negb_true_iff in Hc. rewrite Hc, (IH Hl). reflexivity.
Qed.

Lemma String_split_at (num den : string) :
  no_slash num = true ->
  String_split (num ++ "/" ++ den) "/" = num :: String_split den "/".
Proof.
  intros H. unfold String_split.
  rewrite list_ascii_of_string_app. simpl list_ascii_of_string.
  rewrite split_chars_at by exact H.
  simpl map. now rewrite string_of_list_ascii_of_string.
Qed.

(** One step of each of the three parsers. *)
Lemma json_value_eq (f : nat) (l : list ascii) :
  json_value (S f) l
  = ltac:(let t := eval cbn [json_value] in (json_value (S f) l) in exact t).
Proof. reflexivity. Qed.

Lemma json_members_eq (f : nat) (l : list ascii) (acc : list (string * value)) :
  json_members (S f) l acc
  = ltac:(let t := eval cbn [json_members] in (json_members (S f) l acc) in
          exact t).
Proof. reflexivity. Qed.

Lemma json_elements_eq (f : nat) (l : list ascii) (acc : list value) :
  json_elements (S f) l acc
  = ltac:(let t := eval cbn [json_elements] in (json_elements (S f) l acc) in
          exact t).
Proof. reflexivity. Qed.

Ltac step_value :=
  rewrite json_value_eq;
  cbn -[json_value json_members json_elements json_chars].

Ltac step_members :=
  rewrite json_members_eq;
  cbn -[json_value json_members json_elements].

Ltac step_elements :=
  rewrite json_elements_eq;
  cbn -[json_value json_members json_elements json_chars].

Ltac read_plain H :=
  rewrite json_chars_plain by (exact H || (rewrite length_app; lia));
  cbn -[json_value json_members json_elements json_chars].

(** A report written with plain strings parses, and its first stream
    holds the two strings. *)
Lemma first_stream_report (r nb : string) :
  plain_string r = true -> plain_string nb = true ->
  first_stream (report r nb)
  = Some [("r_frame_rate", Str r); ("nb_frames", Str nb)].
Proof.
  intros Hr Hnb. unfold first_stream, JSON_parse, report, quoted.
  repeat (rewrite list_ascii_of_string_app || simpl list_ascii_of_string).
  rewrite <- !app_assoc. simpl app.
  match goal with
  | |- context [json_value ?fuel _] =>
      let f := fresh "f" in
      assert (exists f, fuel = 12 + f)%nat as [f ->]
        by (eexists (fuel - 12)%nat; simpl List.length; lia)
  end.
  simpl plus.
  step_value. step_members. step_value. step_elements.
  step_value. step_members. step_value. read_plain Hr.
  step_members. step_value. read_plain Hnb.
  reflexivity.
Qed.

End ReportFacts.

(* ================================================================== *)
(** * The extractors *)
(* ================================================================== *)

Module ExtractorFacts.
Import JS Node Notions Payload NumberFacts StringFacts.


(** What the command-line tool starts on a video the prober counts 0
    frames in: ffmpeg is given no [-vframes]. *)
Example main_on_empty_video :
  VideoToFrames.main_spawned
    (VideoToFrames.main (machine (Some 0%Z) (report "30/1" "0"))
       (argv_of (of_Z 100) None))
  = [("ffprobe",
      ["-v"; "error"; "-select_streams"; "v:0";
       "-show_entries"; "stream=nb_frames,r_frame_rate"; "-of"; "json"; "in.mp4"]);
     ("ffmpeg",
      ["-i"; "in.mp4"; "-vf"; "select='not(mod(n,1))'"; "-vsync"; "0";
       "-frame_pts"; "1"; "-f"; "image2"; "frames/frame_%d.jpg"])].
Proof. vm_compute. reflexivity. Qed.




(** C3.  Whatever the input path, the output directory and the frame
    count asked for, the server builds the list [-i inputPath -vframes
    200 -vsync 0 -frame_pts 1 -f image2 path.join(outputDir,
    'frame_%d.jpg')], with no [-vf] filter, and starts ffmpeg with it as
    soon as the output directory is there or can be made; so does the
    upload route, whatever the prober found. *)
Theorem server_extractFrames_fixed (w : World) (inputPath outputDir : string)
    (maxFrames : option number) (file : Server.File) (info : Server.VideoInfo) :
  Server.extractFrames_args inputPath outputDir maxFrames
  = ["-i"; inputPath; "-vframes"; "200"; "-vsync"; "0";
     "-frame_pts"; "1"; "-f"; "image2"; path_join outputDir "frame_%d.jpg"]
  /\ spawned (Server.extractFrames w inputPath outputDir maxFrames)
     = (if directory_ready w outputDir
        then [("ffmpeg",
               ["-i"; inputPath; "-vframes"; "200"; "-vsync"; "0";
                "-frame_pts"; "1"; "-f"; "image2";
                path_join outputDir "frame_%d.jpg"])]
        else [])
  /\ spawned (Server.upload_extract w file info)
     = (if directory_ready w "./frames"
        then [("ffmpeg",
               ["-i"; Server.path file; "-vframes"; "200"; "-vsync"; "0";
                "-frame_pts"; "1"; "-f"; "image2"; "frames/frame_%d.jpg"])]
        else []).
Proof.
  assert (H : forall i o m,
             spawned (Server.extractFrames w i o m)
             = if directory_ready w o
               then [("ffmpeg", Server.extractFrames_args i o m)] else []).
  { intros i o m. unfold Server.extractFrames, directory_ready.
    destruct (existsSync w o); simpl; [ reflexivity | ].
    destruct (mkdirSync w o); reflexivity. }
  split; [ reflexivity | ].
  split; [ apply H | ].
  unfold Server.upload_extract. rewrite H. reflexivity.
Qed.

(** C10.  The server's [extractFrames] does not depend on its third
    argument: the same list, the same run and the same outcome for any
    two values of it; so the frame count the upload route hands over
    changes nothing. *)
Theorem server_extractFrames_ignores_maxFrames (w : World)
    (inputPath outputDir : string) (m1 m2 : option number)
    (file : Server.File) (info1 info2 : Server.VideoInfo) :
  Server.extractFrames_args inputPath outputDir m1
  = Server.extractFrames_args inputPath outputDir m2
  /\ Server.extractFrames w inputPath outputDir m1
     = Server.extractFrames w inputPath outputDir m2
  /\ Server.upload_extract w file info1 = Server.upload_extract w file info2.
Proof.
  split; [ reflexivity | ].
  split; [ reflexivity | ].
  unfold Server.upload_extract. reflexivity.
Qed.

(** Two machines that differ only in what ffprobe reports run the same
    extraction after an upload. *)
Lemma upload_extraction_ignores_probe (w1 w2 : World) (f : Server.File)
    (i1 i2 : Server.VideoInfo) :
  (forall d, existsSync w1 d = existsSync w2 d) ->
  (forall d, mkdirSync w1 d = mkdirSync w2 d) ->
  (forall args, child w1 "ffmpeg" args = child w2 "ffmpeg" args) ->
  settled (Server.getVideoInfo w1 (Server.path f)) = Resolved i1 ->
  settled (Server.getVideoInfo w2 (Server.path f)) = Resolved i2 ->
  snd (Server.upload w1 (Some f)) = snd (Server.upload w2 (Some f)).
Proof.
  intros He Hm Hc H1 H2. unfold Server.upload. simpl snd.
  rewrite H1, H2. f_equal.
  unfold Server.upload_extract, Server.extractFrames.
  rewrite He, Hm, Hc. reflexivity.
Qed.

(** The rejection of an extraction determines the exit code. *)
Lemma extract_error_determines_code (c1 c2 : exit_code) :
  VideoToFrames.extractFrames_on_close c1 = VideoToFrames.extractFrames_on_close c2 ->
  c1 = c2.
Proof.
  unfold VideoToFrames.extractFrames_on_close.
  destruct (is_zero_code c1) eqn:Z1, (is_zero_code c2) eqn:Z2; intros H;
    try discriminate.
  - destruct c1 as [ a | ], c2 as [ b | ]; try discriminate.
    simpl in Z1, Z2. apply Z.eqb_eq in Z1, Z2. congruence.
  - injection H as H. now apply exit_code_toString_inj.
Qed.

(** C4, as the spec states it, fails for the prober: its rejection has
    the same fixed message for every exit code, and the code is not in
    it. *)
Lemma probe_error_lacks_code :
  VideoToFrames.getVideoInfo_on_close (Some 1%Z) ""
  = Rejected {| message := "Failed to get video information" |}
  /\ VideoToFrames.getVideoInfo_on_close (Some 2%Z) ""
     = Rejected {| message := "Failed to get video information" |}
  /\ Server.getVideoInfo_on_close (Some 1%Z) ""
     = Rejected {| message := "Failed to get video information" |}
  /\ carries_code {| message := "Failed to get video information" |} (Some 1%Z)
     = false.
Proof. repeat split. Qed.

(** C4, amended.  A non-zero exit code (or none, when a signal ended the
    process) never gives a success: the extraction is rejected with an
    error whose message ends with the code, in both files, and the probe
    is rejected with the fixed message [Failed to get video
    information], which does not have the code. *)
Theorem nonzero_exit_rejects (code : exit_code) (output : string) :
  is_zero_code code = false ->
  VideoToFrames.extractFrames_on_close code
  = Rejected {| message :=
        ("ffmpeg process exited with code " ++ exit_code_toString code)%string |}
  /\ Server.extractFrames_on_close code
     = Rejected {| message :=
           ("ffmpeg process exited with code " ++ exit_code_toString code)%string |}
  /\ carries_code
       {| message :=
           ("ffmpeg process exited with code " ++ exit_code_toString code)%string |}
       code = true
  /\ VideoToFrames.getVideoInfo_on_close code output
     = Rejected {| message := "Failed to get video information" |}
  /\ Server.getVideoInfo_on_close code output
     = Rejected {| message := "Failed to get video information" |}.
Proof.
  intros Hz.
  unfold VideoToFrames.extractFrames_on_close, Server.extractFrames_on_close,
    VideoToFrames.getVideoInfo_on_close, Server.getVideoInfo_on_close.
  rewrite Hz. simpl negb. cbv iota.
  repeat split.
  unfold carries_code. cbn [message]. apply occurs_append.
Qed.

(** C4 for the exit code 1. *)
Lemma nonzero_exit_rejects_witness :
  VideoToFrames.extractFrames_on_close (Some 1%Z)
  = Rejected {| message := "ffmpeg process exited with code 1" |}
  /\ Server.extractFrames_on_close (Some 1%Z)
     = Rejected {| message := "ffmpeg process exited with code 1" |}
  /\ VideoToFrames.getVideoInfo_on_close (Some 1%Z) ""
     = Rejected {| message := "Failed to get video information" |}.
Proof.
  destruct (nonzero_exit_rejects (Some 1%Z) "" eq_refl) as (A & B & _ & C & _).
  split; [ exact A | split; [ exact B | exact C ] ].
Defined.

End ExtractorFacts.

(* ================================================================== *)
(** * The prober *)
(* ================================================================== *)

Module ProberFacts.
Import JS Node Notions Payload NumberFacts StringFacts ReportFacts.

(** Reading [first_stream] backwards. *)
Lemma first_stream_inv (output : string) (stream : list (string * value)) :
  first_stream output = Some stream ->
  exists members rest,
    JSON_parse output = Normal (Obj members)
    /\ lookup "streams" members = Some (Arr (Obj stream :: rest)).
Proof.
  unfold first_stream.
  destruct (JSON_parse output) as [ v | x ]; [ | discriminate ].
  destruct v as [ | | b | n | s | elements | members ]; try discriminate.
  destruct (lookup "streams" members) as [ sv | ] eqn:L; [ | discriminate ].
  destruct sv as [ | | b | n | s | elements | ms ]; try discriminate.
  destruct elements as [ | e rest ]; [ discriminate | ].
  destruct e as [ | | b | n | s | es | ms ]; try discriminate.
  intros [= <-]. exists members, rest. split; [ reflexivity | exact L ].
Qed.

(** The steps of [read_info] on a report whose first stream is known. *)
Ltac read_stream Hs Hr :=
  let members := fresh "members" in
  let rest := fresh "rest" in
  let P := fresh "P" in
  let L := fresh "L" in
  destruct (first_stream_inv _ _ Hs) as (members & rest & P & L);
  rewrite P; unfold bind, get, get_index; rewrite L; cbn [nth]; rewrite Hr;
  reflexivity.

(** What lines 56 to 62 compute on a report whose first stream has a
    string for [r_frame_rate]. *)
Lemma cli_read_info_of_stream (output : string) (stream : list (string * value))
    (r : string) :
  first_stream output = Some stream ->
  lookup "r_frame_rate" stream = Some (Str r) ->
  VideoToFrames.read_info output
  = Normal {| VideoToFrames.frameRate := rate_of r;
              VideoToFrames.totalFrames := parseInt (field "nb_frames" stream) |}.
Proof.
  intros Hs Hr. unfold VideoToFrames.read_info. read_stream Hs Hr.
Qed.

(** The same for lines 145 to 151 of the server. *)
Lemma server_read_info_of_stream (output : string) (stream : list (string * value))
    (r : string) :
  first_stream output = Some stream ->
  lookup "r_frame_rate" stream = Some (Str r) ->
  Server.read_info output
  = Normal {| Server.frameRate := rate_of r;
              Server.totalFrames := parseInt (field "nb_frames" stream) |}.
Proof.
  intros Hs Hr. unfold Server.read_info. read_stream Hs Hr.
Qed.

(** On every report written with plain strings the probe resolves, in
    both files, with the quotient of the pieces of [r] and with what
    [parseInt] reads in [nb]. *)
Lemma report_resolves (r nb : string) :
  plain_string r = true -> plain_string nb = true ->
  VideoToFrames.getVideoInfo_on_close (Some 0%Z) (report r nb)
  = Resolved {| VideoToFrames.frameRate := rate_of r;
                VideoToFrames.totalFrames := parseInt_string nb |}
  /\ Server.getVideoInfo_on_close (Some 0%Z) (report r nb)
     = Resolved {| Server.frameRate := rate_of r;
                   Server.totalFrames := parseInt_string nb |}.
Proof.
  intros Hr Hnb.
  pose proof (first_stream_report r nb Hr Hnb) as Hs.
  unfold VideoToFrames.getVideoInfo_on_close, Server.getVideoInfo_on_close.
  simpl negb. cbv iota.
  rewrite (cli_read_info_of_stream _ _ r Hs eq_refl),
    (server_read_info_of_stream _ _ r Hs eq_refl).
  split; reflexivity.
Qed.

(** In particular a report with [N/A], or any other text without a
    leading digit, for the frame count resolves with NaN. *)
Lemma report_without_count (r nb : string) :
  plain_string r = true -> plain_string nb = true -> non_numeric nb = true ->
  VideoToFrames.getVideoInfo_on_close (Some 0%Z) (report r nb)
  = Resolved {| VideoToFrames.frameRate := rate_of r;
                VideoToFrames.totalFrames := NaN |}.
Proof.
  intros Hr Hnb Hn.
  rewrite (proj1 (report_resolves r nb Hr Hnb)).
  now rewrite (parseInt_non_numeric nb Hn).
Qed.

(** And a report whose frame rate is a numerator followed by [/0]
    resolves with a frame rate that is NaN or an infinity. *)
Lemma report_zero_denominator (num nb : string) :
  no_slash num = true ->
  plain_string (num ++ "/0") = true -> plain_string nb = true ->
  (rate_of (num ++ "/0") = NaN
   \/ exists negative, rate_of (num ++ "/0") = Inf negative)
  /\ VideoToFrames.getVideoInfo_on_close (Some 0%Z) (report (num ++ "/0") nb)
     = Resolved {| VideoToFrames.frameRate := rate_of (num ++ "/0");
                   VideoToFrames.totalFrames := parseInt_string nb |}.
Proof.
  intros Hn Hr Hnb. split.
  - unfold rate_of.
    change (num ++ "/0")%string with (num ++ "/" ++ "0")%string.
    rewrite (String_split_at num "0" Hn).
    cbn [map nth ToNumber]. apply div_by_zero. reflexivity.
  - exact (proj1 (report_resolves _ nb Hr Hnb)).
Qed.

(** Output that is not JSON makes the handler throw. *)
Lemma malformed_output_throws (output : string) (x : exn) :
  JSON_parse output = Throw x ->
  VideoToFrames.getVideoInfo_on_close (Some 0%Z) output = Uncaught x
  /\ Server.getVideoInfo_on_close (Some 0%Z) output = Uncaught x.
Proof.
  intros P.
  unfold VideoToFrames.getVideoInfo_on_close, Server.getVideoInfo_on_close,
    VideoToFrames.read_info, Server.read_info.
  rewrite P. split; reflexivity.
Qed.

(** So does a report with no stream in it. *)
Lemma missing_stream_throws (output : string) (members : list (string * value)) :
  JSON_parse output = Normal (Obj members) ->
  lookup "streams" members = Some (Arr []) ->
  VideoToFrames.getVideoInfo_on_close (Some 0%Z) output = Uncaught TypeError
  /\ Server.getVideoInfo_on_close (Some 0%Z) output = Uncaught TypeError.
Proof.
  intros P L.
  unfold VideoToFrames.getVideoInfo_on_close, Server.getVideoInfo_on_close,
    VideoToFrames.read_info, Server.read_info.
  rewrite P. unfold bind, get, get_index. rewrite L. split; reflexivity.
Qed.

(** A frame rate with no slash in it has no denominator: the quotient
    is NaN. *)
Lemma rate_without_slash (r : string) (num : string) :
  String_split r "/" = [num] -> rate_of r = NaN.
Proof.
  intros H. unfold rate_of. rewrite H. cbn [map nth ToNumber].
  destruct (StringToNumber num); reflexivity.
Qed.








(** The same on a report with no [nb_frames] member, and the frame rate
    of a usual report. *)
Example probe_examples :
  VideoToFrames.getVideoInfo_on_close (Some 0%Z)
    (report_without_nb_frames "30000/1001")
  = Resolved {| VideoToFrames.frameRate := Fin (30000 # 1001);
                VideoToFrames.totalFrames := NaN |}
  /\ VideoToFrames.getVideoInfo_on_close (Some 0%Z) (report "30000/1001" "250")
     = Resolved {| VideoToFrames.frameRate := Fin (30000 # 1001);
                   VideoToFrames.totalFrames := of_Z 250 |}.
Proof. split; vm_compute; reflexivity. Qed.

End ProberFacts.

(* ================================================================== *)
(** * More on the sampling plan *)
(* ================================================================== *)

Module SamplingFacts.
Import JS NumberFacts VideoToFrames Notions Payload PlannerFacts.

Lemma hundred_over_times (q : Q) : (0 < q)%Q -> (100 / q * q == 100)%Q.
Proof.
  intros H. field. intros E. rewrite E in H. now apply Qlt_irrefl in H.
Qed.

Lemma hundred_over_lt (q c : Q) :
  (0 < q)%Q -> ((100 / q < c)%Q <-> (100 < c * q)%Q).
Proof.
  intros H. pose proof (hundred_over_times q H) as E. split; intros L.
  - rewrite <- E. apply Qmult_lt_r; assumption.
  - apply Qlt_shift_div_r; assumption.
Qed.

Lemma hundred_over_le (q1 q2 : Q) :
  (0 < q1)%Q -> (q1 <= q2)%Q -> (100 / q2 <= 100 / q1)%Q.
Proof.
  intros H1 H12.
  assert (H2 : (0 < q2)%Q) by (eapply Qlt_le_trans; eassumption).
  apply Qle_shift_div_l; [ assumption | ].
  rewrite <- (hundred_over_times q2 H2) at 2.
  apply Qmult_le_l; [ | assumption ].
  apply Qlt_shift_div_l; [ assumption | ]. rewrite Qmult_0_l. reflexivity.
Qed.



Lemma ceil_div_le (t k : Z) : (0 <= t)%Z -> (1 <= k)%Z -> (ceil_div t k <= t)%Z.
Proof.
  intros Ht Hk. unfold ceil_div.
  rewrite <- (Qceiling_Z t) at 2. apply Qceiling_resp_le.
  apply Qle_shift_div_r; [ apply inject_Z_pos; lia | ].
  rewrite <- inject_Z_mult, <- Zle_Qle. nia.
Qed.

(** [le] through a bound between finite values. *)
Lemma le_Fin_trans (x : number) (a b : Q) :
  le x (Fin a) -> (a <= b)%Q -> le x (Fin b).
Proof.
  destruct x as [ | [ | ] | | qx ]; intros H Hab; try discriminate H;
    try reflexivity.
  - unfold le, leb in *. simpl in *. rewrite negb_involutive in *.
    apply Qle_bool_iff. apply Qle_bool_iff in H. eapply Qle_trans; eassumption.
  - apply le_Fin. apply le_Fin in H. eapply Qle_trans; eassumption.
Qed.

(** [Math.max(1, x)] is 1 for a whole [x] up to 1, and for -0. *)
Lemma Math_max_1_small (z : Z) : (z <= 1)%Z -> Math_max (of_Z 1) (of_Z z) = of_Z 1.
Proof.
  intros H. unfold Math_max, of_Z. simpl is_nan. simpl orb. cbv iota.
  rewrite !ltb_Fin.
  assert (E : Qle_bool (inject_Z z) (inject_Z 1) = true)
    by (apply Qle_bool_iff; rewrite <- Zle_Qle; exact H).
  rewrite E. simpl negb. cbv iota.
  destruct (Qle_bool (inject_Z 1) (inject_Z z)); reflexivity.
Qed.

Lemma Math_round_small (r : Q) :
  (r < 1 # 2)%Q ->
  Math_round (Fin r) = NegZero
  \/ exists z, (z <= 0)%Z /\ Math_round (Fin r) = of_Z z.
Proof.
  intros H. unfold Math_round.
  assert (B : (Qfloor (r + (1 # 2)) <= 0)%Z).
  { pose proof (Qfloor_le (r + (1 # 2))%Q) as L.
    assert (C : (inject_Z (Qfloor (r + (1 # 2))) < inject_Z 1)%Q)
      by (change (inject_Z 1) with 1%Q; lra).
    rewrite <- Zlt_Qlt in C. lia. }
  destruct ((Qfloor (r + (1 # 2)) =? 0)%Z && (Qnum r <? 0)%Z); eauto.
Qed.

Lemma Math_round_upto_1 (r : Q) :
  (0 < r)%Q -> (r < 1)%Q ->
  exists z, (z <= 1)%Z /\ Math_round (Fin r) = of_Z z.
Proof.
  intros H0 H1. unfold Math_round.
  assert (B : (Qfloor (r + (1 # 2)) <= 1)%Z).
  { pose proof (Qfloor_le (r + (1 # 2))%Q) as L.
    assert (C : (inject_Z (Qfloor (r + (1 # 2))) < inject_Z 2)%Q)
      by (change (inject_Z 2) with 2%Q; lra).
    rewrite <- Zlt_Qlt in C. lia. }
  assert (N : (Qnum r <? 0)%Z = false).
  { apply Z.ltb_ge. unfold Qlt in H0. simpl in H0. lia. }
  rewrite N, andb_false_r. eauto.
Qed.

Lemma hundred_over_neg (q : Q) : (q < 0)%Q -> (100 / q < 0)%Q.
Proof.
  intros H.
  assert (E : (100 / q == - (100 / - q))%Q).
  { field. intros C. rewrite C in H. now apply Qlt_irrefl in H. }
  rewrite E.
  assert (P : (0 < 100 / - q)%Q).
  { apply Qlt_shift_div_l; [ lra | ]. rewrite Qmult_0_l. reflexivity. }
  lra.
Qed.

Lemma Qeq_bool_neg (q : Q) : (q < 0)%Q -> Qeq_bool q 0 = false.
Proof.
  intros H. destruct (Qeq_bool q 0) eqn:E; [ | reflexivity ].
  apply Qeq_bool_iff in E. rewrite E in H. now apply Qlt_irrefl in H.
Qed.



(** X2.  Within (0, 100] a larger percentage never gives a larger
    interval. *)
Theorem frameInterval_antitone (argv1 argv2 : Argv) (q1 q2 : Q) :
  percentage argv1 = Fin q1 -> percentage argv2 = Fin q2 ->
  (0 < q1)%Q -> (q1 <= q2)%Q -> (q2 <= 100)%Q ->
  le (frameInterval argv2) (frameInterval argv1).
Proof.
  intros Hp1 Hp2 Hpos H12 Hle.
  assert (Hpos2 : (0 < q2)%Q) by (eapply Qlt_le_trans; eassumption).
  assert (Hle1 : (q1 <= 100)%Q) by (eapply Qle_trans; eassumption).
  rewrite (frameInterval_eq argv1 q1 Hp1 Hpos Hle1),
    (frameInterval_eq argv2 q2 Hp2 Hpos2 Hle).
  apply le_of_Z. unfold interval_of. apply Qfloor_resp_le.
  apply Qplus_le_l. now apply hundred_over_le.
Qed.

(** X2 between 10 and 25 percent. *)
Lemma frameInterval_antitone_witness :
  le (frameInterval (argv_of (of_Z 25) None)) (frameInterval (argv_of (of_Z 10) None)).
Proof.
  exact (frameInterval_antitone (argv_of (of_Z 10) None) (argv_of (of_Z 25) None)
           (inject_Z 10) (inject_Z 25) eq_refl eq_refl
           ltac:(reflexivity) ltac:(discriminate) ltac:(discriminate)).
Defined.

(** X3.  Nothing checks the range of the percentage: a finite
    percentage above 100 or below 0 gives the interval 1, as 100 percent
    does, and a percentage of 0 gives the interval Infinity. *)
Theorem percentage_out_of_range (argv : Argv) (q : Q) :
  percentage argv = Fin q ->
  ((100 < q \/ q < 0)%Q -> frameInterval argv = of_Z 1)
  /\ ((q == 0)%Q -> frameInterval argv = Inf false).
Proof.
  intros Hp. unfold frameInterval. rewrite Hp. split.
  - intros [Hq | Hq].
    + assert (Hpos : (0 < q)%Q) by lra.
      unfold of_Z at 2. rewrite div_Fin;
        [ | reflexivity | now apply Qeq_bool_pos ].
      change (inject_Z 100) with 100%Q.
      destruct (Math_round_upto_1 (100 / q)) as (z & Hz & ->).
      * apply Qlt_shift_div_l; [ assumption | ]. rewrite Qmult_0_l. reflexivity.
      * apply hundred_over_lt; [ assumption | lra ].
      * now apply Math_max_1_small.
    + unfold of_Z at 2. rewrite div_Fin;
        [ | reflexivity | now apply Qeq_bool_neg ].
      change (inject_Z 100) with 100%Q.
      pose proof (hundred_over_neg q Hq) as Hn.
      destruct (Math_round_small (100 / q)) as [-> | (z & Hz & ->)];
        [ lra | reflexivity | apply Math_max_1_small; lia ].
  - intros Hz. unfold div, of_Z, is_zero.
    assert (E : Qeq_bool q 0 = true) by now apply Qeq_bool_iff.
    rewrite E.
    replace (Qeq_bool (inject_Z 100) 0) with false by reflexivity.
    assert (S : sign (Fin q) = false).
    { unfold sign. apply Z.ltb_ge. unfold Qeq in Hz. simpl in Hz. lia. }
    rewrite S. reflexivity.
Qed.

(** X3 at 150 percent. *)
Lemma percentage_out_of_range_witness :
  frameInterval (argv_of (of_Z 150) None) = of_Z 1.
Proof.
  exact (proj1 (percentage_out_of_range (argv_of (of_Z 150) None) (inject_Z 150)
                  eq_refl)
           (or_introl (eq_refl : (100 < inject_Z 150)%Q))).
Defined.

(** X4.  For [t >= 0] frames and a percentage in (0, 100], with or
    without a cap, the effective maximum never exceeds the number of
    frames of the video. *)
Theorem effectiveMaxFrames_le_total (argv : Argv) (q : Q) (t : Z) :
  percentage argv = Fin q -> (0 < q)%Q -> (q <= 100)%Q -> (0 <= t)%Z ->
  le (effectiveMaxFrames argv (of_Z t)) (of_Z t).
Proof.
  intros Hp Hpos Hle Ht.
  pose proof (uncapped_eq argv q Hp Hpos Hle t Ht) as U.
  assert (C : (ceil_div t (interval_of q) <= t)%Z)
    by (apply ceil_div_le; [ assumption | now apply interval_of_ge_1 ]).
  destruct (maxFrames argv) as [ cap | ] eqn:Hm.
  - destruct (truthy cap) eqn:Hc.
    + rewrite (effectiveMaxFrames_capped argv cap _ Hm Hc), U.
      unfold of_Z. eapply le_Fin_trans.
      * apply Math_min_le_r; [ now apply truthy_not_nan | reflexivity ].
      * rewrite <- Zle_Qle. exact C.
    + rewrite effectiveMaxFrames_uncapped by (rewrite Hm; exact Hc).
      rewrite U. now apply le_of_Z.
  - rewrite effectiveMaxFrames_uncapped by (rewrite Hm; reflexivity).
    rewrite U. now apply le_of_Z.
Qed.

(** X4 on 30 frames at 25 percent with a cap of 50. *)
Lemma effectiveMaxFrames_le_total_witness :
  le (effectiveMaxFrames (argv_of (of_Z 25) (Some (of_Z 50))) (of_Z 30)) (of_Z 30).
Proof.
  exact (effectiveMaxFrames_le_total (argv_of (of_Z 25) (Some (of_Z 50)))
           (inject_Z 25) 30 eq_refl ltac:(reflexivity) ltac:(discriminate)
           ltac:(lia)).
Defined.

End SamplingFacts.

(* ================================================================== *)
(** * The command-line tool from end to end *)
(* ================================================================== *)

Module MainFacts.
Import JS Node NumberFacts VideoToFrames Notions Payload.

Lemma settled_getVideoInfo (w : World) (inputPath : string) :
  settled (getVideoInfo w inputPath)
  = getVideoInfo_on_close
      (fst (child w "ffprobe" (ffprobeArgs inputPath)))
      (snd (child w "ffprobe" (ffprobeArgs inputPath))).
Proof.
  unfold getVideoInfo.
  destruct (child w "ffprobe" (ffprobeArgs inputPath)); reflexivity.
Qed.

Lemma spawned_getVideoInfo (w : World) (inputPath : string) :
  spawned (getVideoInfo w inputPath) = [("ffprobe", ffprobeArgs inputPath)].
Proof.
  unfold getVideoInfo.
  destruct (child w "ffprobe" (ffprobeArgs inputPath)); reflexivity.
Qed.



(** What an extraction does, by the state of the output directory. *)
Lemma extractFrames_run (w : World) (inputPath outputDir : string)
    (frameInterval : number) (maxFrames : option number) :
  extractFrames w inputPath outputDir frameInterval maxFrames
  = if existsSync w outputDir then
      {| created := [];
         spawned := [("ffmpeg",
                      extractFrames_args inputPath outputDir frameInterval maxFrames)];
         settled := extractFrames_on_close
                      (fst (child w "ffmpeg"
                              (extractFrames_args inputPath outputDir
                                 frameInterval maxFrames))) |}
    else
      match mkdirSync w outputDir with
      | Some e => {| created := []; spawned := []; settled := Rejected e |}
      | None =>
          {| created := [outputDir];
             spawned := [("ffmpeg",
                          extractFrames_args inputPath outputDir frameInterval
                            maxFrames)];
             settled := extractFrames_on_close
                          (fst (child w "ffmpeg"
                                  (extractFrames_args inputPath outputDir
                                     frameInterval maxFrames))) |}
      end.
Proof.
  unfold extractFrames. destruct (existsSync w outputDir); simpl;
    [ reflexivity | ]. destruct (mkdirSync w outputDir); reflexivity.
Qed.



Lemma effectiveMaxFrames_NaN (argv : Argv) : effectiveMaxFrames argv NaN = NaN.
Proof.
  unfold effectiveMaxFrames. destruct (truthy_opt (maxFrames argv)).
  - simpl div. simpl Math_ceil. unfold Math_min.
    now rewrite orb_true_r.
  - reflexivity.
Qed.

(** X5.  When ffprobe exits with a code other than 0 the tool starts
    nothing else: no directory is made, ffmpeg is not run, and the
    process exits through [process.exit(1)] after the message [Failed to
    get video information]. *)
Theorem main_probe_failure (w : World) (argv : Argv) :
  is_zero_code (fst (child w "ffprobe" (ffprobeArgs (input argv)))) = false ->
  main w argv
  = {| main_created := [];
       main_spawned := [("ffprobe", ffprobeArgs (input argv))];
       main_ending := Exit1 "Failed to get video information" |}.
Proof.
  intros H. unfold main.
  rewrite settled_getVideoInfo, spawned_getVideoInfo.
  unfold getVideoInfo_on_close. rewrite H. reflexivity.
Qed.

(** X5 with ffprobe exiting with 1. *)
Lemma main_probe_failure_witness :
  main (machine (Some 1%Z) "") (argv_of (of_Z 10) None)
  = {| main_created := [];
       main_spawned := [("ffprobe", ffprobeArgs "in.mp4")];
       main_ending := Exit1 "Failed to get video information" |}.
Proof.
  exact (main_probe_failure (machine (Some 1%Z) "") (argv_of (of_Z 10) None)
           eq_refl).
Defined.


(** X7.  When the probe resolves with a frame count that is NaN (the
    prober wrote [N/A], or nothing), ffmpeg is started without
    [-vframes], whatever [--maxFrames] the user gave: the cap is lost
    in [Math.min(cap, NaN)]. *)
Theorem main_unknown_count_drops_cap (w : World) (argv : Argv) (info : VideoInfo) :
  settled (getVideoInfo w (input argv)) = Resolved info ->
  totalFrames info = NaN ->
  directory_ready w (output argv) = true ->
  main_spawned (main w argv)
  = [("ffprobe", ffprobeArgs (input argv));
     ("ffmpeg",
      ["-i"; input argv;
       "-vf"; ("select='not(mod(n," ++ Number_toString (frameInterval argv)
                 ++ "))'")%string;
       "-vsync"; "0"; "-frame_pts"; "1"; "-f"; "image2";
       path_join (output argv) "frame_%d.jpg"])].
Proof.
  intros P T D. unfold main. rewrite P, T, effectiveMaxFrames_NaN.
  cbn [main_spawned]. rewrite spawned_getVideoInfo, extractFrames_run.
  unfold directory_ready in D.
  destruct (existsSync w (output argv)); [ reflexivity | ].
  destruct (mkdirSync w (output argv)); [ discriminate D | reflexivity ].
Qed.

(** X7 at 10 percent with a cap of 50, on a report with [N/A]. *)
Lemma main_unknown_count_drops_cap_witness :
  main_spawned
    (main (machine (Some 0%Z) (report "30/1" "N/A"))
       (argv_of (of_Z 10) (Some (of_Z 50))))
  = [("ffprobe", ffprobeArgs "in.mp4");
     ("ffmpeg",
      ["-i"; "in.mp4"; "-vf"; "select='not(mod(n,10))'";
       "-vsync"; "0"; "-frame_pts"; "1"; "-f"; "image2";
       "frames/frame_%d.jpg"])].
Proof.
  exact (main_unknown_count_drops_cap
           (machine (Some 0%Z) (report "30/1" "N/A"))
           (argv_of (of_Z 10) (Some (of_Z 50)))
           {| frameRate := rate_of "30/1"; totalFrames := NaN |}
           eq_refl eq_refl eq_refl).
Defined.

(** X8.  When the probe resolved and the output directory is ready,
    an ffmpeg that exits with a code other than 0 makes the tool exit
    through [process.exit(1)] with that code in the message. *)
Theorem main_ffmpeg_failure (w : World) (argv : Argv) (info : VideoInfo) :
  settled (getVideoInfo w (input argv)) = Resolved info ->
  directory_ready w (output argv) = true ->
  is_zero_code
    (fst (child w "ffmpeg"
            (extractFrames_args (input argv) (output argv) (frameInterval argv)
               (Some (effectiveMaxFrames argv (totalFrames info))))))
  = false ->
  main_ending (main w argv)
  = Exit1 ("ffmpeg process exited with code "
           ++ exit_code_toString
                (fst (child w "ffmpeg"
                        (extractFrames_args (input argv) (output argv)
                           (frameInterval argv)
                           (Some (effectiveMaxFrames argv (totalFrames info)))))))%string.
Proof.
  intros P D F. unfold main. rewrite P. cbn [main_ending].
  rewrite extractFrames_run. unfold directory_ready in D.
  unfold extractFrames_on_close.
  destruct (existsSync w (output argv)); cbn [settled].
  - rewrite F. reflexivity.
  - destruct (mkdirSync w (output argv)); [ discriminate D | ].
    cbn [settled]. rewrite F. reflexivity.
Qed.

(** X8 with ffmpeg exiting with 1. *)
Lemma main_ffmpeg_failure_witness :
  main_ending (main (machine_with_ffmpeg (Some 1%Z)) (argv_of (of_Z 10) None))
  = Exit1 "ffmpeg process exited with code 1".
Proof.
  exact (main_ffmpeg_failure (machine_with_ffmpeg (Some 1%Z))
           (argv_of (of_Z 10) None)
           {| frameRate := rate_of "30/1"; totalFrames := of_Z 1000 |}
           eq_refl eq_refl eq_refl).
Defined.

End MainFacts.

(* ================================================================== *)
(** * Where the frames are written *)
(* ================================================================== *)

Module PathFacts.
Import JS Node Notions Payload NumberFacts StringFacts ReportFacts.

Lemma split_chars_nonempty (sep : ascii) (l : list ascii) : split_chars sep l <> [].
Proof.
  destruct l as [ | c l ]; simpl; [ discriminate | ].
  destruct (Ascii.eqb c sep); [ discriminate | ].
  destruct (split_chars sep l); discriminate.
Qed.

Lemma split_chars_no_sep (sep : ascii) (l : list ascii) :
  forallb (fun c => negb (Ascii.eqb c sep)) l = true -> split_chars sep l = [l].
Proof.
  induction l as [ | c l IH ]; simpl; intros H; [ reflexivity | ].
  apply andb_true_iff in H. destruct H as [Hc Hl].
  apply negb_true_iff in Hc. rewrite Hc, (IH Hl). reflexivity.
Qed.

Lemma split_chars_snoc (sep : ascii) (l1 l2 : list ascii) :
  forallb (fun c => negb (Ascii.eqb c sep)) l2 = true ->
  split_chars sep (l1 ++ sep :: l2) = split_chars sep l1 ++ [l2].
Proof.
  intros H. induction l1 as [ | c l1 IH ]; simpl.
  - rewrite Ascii.eqb_refl, (split_chars_no_sep sep l2 H). reflexivity.
  - destruct (Ascii.eqb c sep); rewrite IH; [ reflexivity | ].
    pose proof (split_chars_nonempty sep l1) as N.
    destruct (split_chars sep l1); [ contradiction | reflexivity ].
Qed.

Lemma String_split_snoc (o f : string) :
  no_slash f = true ->
  String_split (o ++ String "/" f) "/" = String_split o "/" ++ [f].
Proof.
  intros H. unfold String_split.
  rewrite list_ascii_of_string_app. simpl list_ascii_of_string.
  rewrite split_chars_snoc by exact H.
  rewrite map_app. simpl map. now rewrite string_of_list_ascii_of_string.
Qed.

Lemma normalize_segments_snoc (allow : bool) (segs : list string) (f : string) :
  String.eqb f "" = false -> String.eqb f "." = false -> String.eqb f ".." = false ->
  normalize_segments allow (segs ++ [f]) = f :: normalize_segments allow segs.
Proof.
  intros H1 H2 H3. unfold normalize_segments. rewrite fold_left_app. simpl.
  now rewrite H1, H2, H3.
Qed.

Lemma append_assoc (a b c : string) :
  ((a ++ b) ++ c)%string = (a ++ b ++ c)%string.
Proof.
  induction a as [ | x a IH ]; simpl; [ reflexivity | now rewrite IH ].
Qed.

Lemma concat_snoc (sep : string) (l : list string) (x : string) :
  String.concat sep (l ++ [x])
  = match l with
    | [] => x
    | _ => (String.concat sep l ++ sep ++ x)%string
    end.
Proof.
  induction l as [ | a l IH ]; [ reflexivity | ].
  destruct l as [ | b l ].
  - reflexivity.
  - change (String.concat sep ((a :: b :: l) ++ [x]))
      with (a ++ sep ++ String.concat sep ((b :: l) ++ [x]))%string.
    rewrite IH.
    change (String.concat sep (a :: b :: l))
      with (a ++ sep ++ String.concat sep (b :: l))%string.
    rewrite !append_assoc. reflexivity.
Qed.

Lemma last_char_app (a b : string) (c : ascii) :
  last_char b = Some c -> last_char (a ++ b) = Some c.
Proof.
  unfold last_char. rewrite list_ascii_of_string_app, map_app.
  destruct (list_ascii_of_string b) as [ | x l ]; [ discriminate | ].
  intros H. simpl map in *.
  induction (map Some (list_ascii_of_string a)) as [ | y m IH ]; [ exact H | ].
  simpl app. destruct (m ++ Some x :: map Some l) eqn:E.
  - destruct m; discriminate E.
  - exact IH.
Qed.

Lemma eqb_app_nonempty (a : string) (c : ascii) (b : string) :
  String.eqb (a ++ String c b) "" = false.
Proof. destruct a; reflexivity. Qed.

Lemma path_join_frame (outputDir : string) :
  exists dir,
    path_join outputDir "frame_%d.jpg" = (dir ++ "frame_%d.jpg")%string
    /\ (dir = "" \/ exists d, dir = (d ++ "/")%string).
Proof.
  unfold path_join.
  destruct (String.eqb outputDir "") eqn:E.
  - exists "". split; [ reflexivity | now left ].
  - simpl String.eqb. cbv iota. simpl append. unfold path_normalize.
    rewrite eqb_app_nonempty.
    rewrite (last_char_app outputDir "/frame_%d.jpg" "g" eq_refl).
    rewrite String_split_snoc by reflexivity.
    rewrite normalize_segments_snoc by reflexivity.
    simpl rev. rewrite concat_snoc.
    simpl Ascii.eqb. cbv iota.
    generalize (String.prefix "/" (outputDir ++ "/frame_%d.jpg")). intros abs.
    destruct (rev (normalize_segments (negb abs) (String_split outputDir "/")))
      as [ | a st ].
    + simpl String.eqb. cbv iota. rewrite append_nil_r.
      exists (if abs then "/" else "")%string. split; [ reflexivity | ].
      destruct abs; [ right; now exists "" | now left ].
    + simpl append. rewrite eqb_app_nonempty.
      rewrite append_nil_r.
      exists ((if abs then "/" else "") ++ String.concat "/" (a :: st) ++ "/")%string.
      split.
      * rewrite !append_assoc. reflexivity.
      * right. exists ((if abs then "/" else "") ++ String.concat "/" (a :: st))%string.
        now rewrite append_assoc.
Qed.

Lemma join_split_chars (sep : ascii) (l : list ascii) :
  join_chars sep (split_chars sep l) = l.
Proof.
  induction l as [ | c l IH ]; [ reflexivity | ].
  simpl split_chars.
  pose proof (split_chars_nonempty sep l) as N.
  destruct (Ascii.eqb_spec c sep) as [ -> | Hc ].
  - destruct (split_chars sep l) as [ | w ws ]; [ contradiction | ].
    simpl join_chars in *. now rewrite IH.
  - destruct (split_chars sep l) as [ | w ws ]; [ contradiction | ].
    destruct ws; simpl in *; now rewrite IH.
Qed.

Lemma string_of_list_ascii_app (a b : list ascii) :
  string_of_list_ascii (a ++ b)
  = (string_of_list_ascii a ++ string_of_list_ascii b)%string.
Proof.
  induction a as [ | c a IH ]; simpl; [ reflexivity | now rewrite IH ].
Qed.

Lemma concat_join (ls : list (list ascii)) :
  String.concat "/" (map string_of_list_ascii ls)
  = string_of_list_ascii (join_chars "/" ls).
Proof.
  induction ls as [ | l ls IH ]; [ reflexivity | ].
  destruct ls as [ | l' ls ]; [ reflexivity | ].
  change (String.concat "/" (map string_of_list_ascii (l :: l' :: ls)))
    with (string_of_list_ascii l ++ "/"
          ++ String.concat "/" (map string_of_list_ascii (l' :: ls)))%string.
  rewrite IH.
  change (join_chars "/" (l :: l' :: ls))
    with (l ++ "/"%char :: join_chars "/" (l' :: ls)).
  rewrite string_of_list_ascii_app. reflexivity.
Qed.

(** Splitting at the slashes and joining with slashes gives the string
    back. *)
Lemma concat_split (s : string) : String.concat "/" (String_split s "/") = s.
Proof.
  unfold String_split. rewrite concat_join, join_split_chars.
  apply string_of_list_ascii_of_string.
Qed.

Lemma normalize_fold_plain (allow : bool) (segs : list string) :
  forallb plain_segment segs = true ->
  forall stack,
    fold_left
      (fun stack seg =>
         if String.eqb seg "" || String.eqb seg "." then stack
         else if String.eqb seg ".." then
           match stack with
           | top :: rest =>
               if String.eqb top ".."
               then (if allow then seg :: stack else stack)
               else rest
           | [] => if allow then [seg] else []
           end
         else seg :: stack)
      segs stack
    = rev segs ++ stack.
Proof.
  induction segs as [ | s segs IH ]; intros H stack; [ reflexivity | ].
  simpl in H. apply andb_true_iff in H. destruct H as [Hs Hr].
  unfold plain_segment in Hs.
  apply andb_true_iff in Hs. destruct Hs as [Hs H3].
  apply andb_true_iff in Hs. destruct Hs as [H1 H2].
  apply negb_true_iff in H1, H2, H3.
  simpl fold_left. rewrite H1, H2, H3. simpl orb. cbv iota.
  rewrite (IH Hr). simpl rev. now rewrite <- app_assoc.
Qed.

(** Plain segments are all kept. *)
Lemma normalize_segments_plain (allow : bool) (segs : list string) :
  forallb plain_segment segs = true ->
  normalize_segments allow segs = rev segs.
Proof.
  intros H. unfold normalize_segments.
  rewrite (normalize_fold_plain allow segs H). apply app_nil_r.
Qed.

Lemma normalize_segments_empty_first (allow : bool) (segs : list string) :
  normalize_segments allow ("" :: segs) = normalize_segments allow segs.
Proof. reflexivity. Qed.

Lemma prefix_slash (s : string) :
  String.prefix "/" s
  = match s with
    | String c _ => Ascii.eqb c "/"
    | EmptyString => false
    end.
Proof.
  destruct s as [ | c s ]; [ reflexivity | ].
  change (String.prefix "/" (String c s))
    with (if ascii_dec "/" c then String.prefix "" s else false).
  destruct (ascii_dec "/" c) as [ <- | N ].
  - destruct s; reflexivity.
  - symmetry. apply Ascii.eqb_neq. congruence.
Qed.

Lemma String_split_slash_first (o : string) :
  String.prefix "/" o = true -> exists rest, String_split o "/" = "" :: rest.
Proof.
  rewrite prefix_slash. destruct o as [ | c o ]; [ discriminate | ].
  intros H. unfold String_split. simpl. rewrite H. simpl. eauto.
Qed.

Lemma forallb_snoc {A : Type} (p : A -> bool) (l : list A) (x : A) :
  forallb p (l ++ [x]) = forallb p l && p x.
Proof. rewrite forallb_app. simpl. now rewrite andb_true_r. Qed.

Lemma path_join_clean (o : string) :
  clean_directory o = true ->
  path_join o "frame_%d.jpg" = (o ++ "/frame_%d.jpg")%string.
Proof.
  unfold clean_directory. intros H.
  assert (E : String.eqb o "" = false).
  { destruct o; [ discriminate H | reflexivity ]. }
  pose proof (concat_split (o ++ "/frame_%d.jpg")) as C.
  unfold path_join. rewrite E. simpl String.eqb. cbv iota. simpl append.
  unfold path_normalize. rewrite eqb_app_nonempty.
  rewrite (last_char_app o "/frame_%d.jpg" "g" eq_refl).
  simpl Ascii.eqb. cbv iota.
  rewrite String_split_snoc in * by reflexivity.
  assert (P : String.prefix "/" (o ++ "/frame_%d.jpg") = String.prefix "/" o).
  { rewrite !prefix_slash. destruct o; [ discriminate E | reflexivity ]. }
  rewrite P.
  destruct (String_split o "/") as [ | first rest ] eqn:S; [ discriminate H | ].
  apply andb_true_iff in H. destruct H as [Hf Hr].
  apply orb_true_iff in Hf. destruct Hf as [Hf | Hf].
  - (* a relative directory *)
    assert (A : String.prefix "/" o = false).
    { destruct (String.prefix "/" o) eqn:A; [ | reflexivity ].
      destruct (String_split_slash_first o A) as [rest' S'].
      rewrite S in S'. injection S' as -> _. discriminate Hf. }
    rewrite A. simpl negb.
    rewrite normalize_segments_plain
      by (rewrite forallb_snoc; simpl forallb; now rewrite Hf, Hr).
    rewrite rev_involutive, C.
    rewrite eqb_app_nonempty. now rewrite append_nil_r.
  - (* an absolute directory *)
    apply andb_true_iff in Hf. destruct Hf as [Hf Hn].
    apply String.eqb_eq in Hf. subst first.
    assert (A : String.prefix "/" o = true).
    { rewrite prefix_slash. unfold String_split in S.
      destruct o as [ | c o ]; [ discriminate E | ].
      simpl in S. destruct (Ascii.eqb c "/"); [ reflexivity | ].
      destruct (split_chars "/" (list_ascii_of_string o)); discriminate S. }
    rewrite A. simpl negb.
    simpl app. rewrite normalize_segments_empty_first.
    rewrite normalize_segments_plain
      by (rewrite forallb_snoc; now rewrite Hr).
    rewrite rev_involutive.
    destruct rest as [ | r rest ]; [ discriminate Hn | ].
    rewrite <- C.
    change (String.concat "/" (("" :: r :: rest) ++ ["frame_%d.jpg"]))
      with ("/" ++ String.concat "/" ((r :: rest) ++ ["frame_%d.jpg"]))%string.
    rewrite concat_snoc. simpl append.
    rewrite eqb_app_nonempty. now rewrite append_nil_r.
Qed.

(** X9.  Whatever the output directory, the last argument given to
    ffmpeg, in both files, is a directory part, empty or ending with a
    slash, followed by [frame_%d.jpg]. *)
Theorem frames_are_named_frame (inputPath outputDir : string)
    (frameInterval : number) (maxFrames : option number) :
  exists dir,
    last (VideoToFrames.extractFrames_args inputPath outputDir frameInterval
            maxFrames) ""
    = (dir ++ "frame_%d.jpg")%string
    /\ last (Server.extractFrames_args inputPath outputDir maxFrames) ""
       = (dir ++ "frame_%d.jpg")%string
    /\ (dir = "" \/ exists d, dir = (d ++ "/")%string).
Proof.
  destruct (path_join_frame outputDir) as (dir & E & D).
  exists dir. repeat split; try exact D.
  - unfold VideoToFrames.extractFrames_args.
    destruct (truthy_opt maxFrames); exact E.
  - exact E.
Qed.

(** X10.  For an output directory written as plain segments between
    single slashes, relative or absolute, with no slash at the end, the
    last argument given to ffmpeg is that directory, a slash, and
    [frame_%d.jpg], in both files. *)
Theorem output_pattern_clean (inputPath outputDir : string)
    (frameInterval : number) (maxFrames : option number) :
  clean_directory outputDir = true ->
  last (VideoToFrames.extractFrames_args inputPath outputDir frameInterval
          maxFrames) ""
  = (outputDir ++ "/frame_%d.jpg")%string
  /\ last (Server.extractFrames_args inputPath outputDir maxFrames) ""
     = (outputDir ++ "/frame_%d.jpg")%string.
Proof.
  intros H. pose proof (path_join_clean outputDir H) as E. split.
  - unfold VideoToFrames.extractFrames_args.
    destruct (truthy_opt maxFrames); exact E.
  - exact E.
Qed.

(** X10 for the directory [/var/out/frames]. *)
Lemma output_pattern_clean_witness :
  last (VideoToFrames.extractFrames_args "in.mp4" "/var/out/frames" (of_Z 4)
          (Some (of_Z 8))) ""
  = "/var/out/frames/frame_%d.jpg"
  /\ last (Server.extractFrames_args "in.mp4" "/var/out/frames" None) ""
     = "/var/out/frames/frame_%d.jpg".
Proof.
  exact (output_pattern_clean "in.mp4" "/var/out/frames" (of_Z 4)
           (Some (of_Z 8)) eq_refl).
Defined.

End PathFacts.

(* ================================================================== *)
(** * From the report of ffprobe to the command line of ffmpeg *)
(* ================================================================== *)

Module PipelineFacts.
Import JS Node Notions Payload NumberFacts StringFacts ReportFacts ProberFacts.
Import PlannerFacts MainFacts PathFacts.












Lemma forallb_rev {A} (p : A -> bool) (l : list A) :
  forallb p (rev l) = forallb p l.
Proof.
  induction l as [ | x l IH ]; [ reflexivity | ].
  simpl. rewrite forallb_app, IH. simpl. rewrite andb_true_r. apply andb_comm.
Qed.






















End PipelineFacts.

(* ================================================================== *)
(** * path.extname *)
(* ================================================================== *)

Module ExtnameFacts.
Import JS Node Notions Payload NumberFacts StringFacts ReportFacts.
Import PathFacts PipelineFacts.



(** One turn of the loop on a character that is not a slash. *)
Lemma extname_loop_step (c : ascii) (rest : list ascii) (i : Z) (st : ext_state) :
  Ascii.eqb c "/" = false ->
  exists st2,
    extname_loop (c :: rest) i st = extname_loop rest (i - 1)%Z st2
    /\ ext_end st2 = (if (ext_end st =? -1)%Z then (i + 1)%Z else ext_end st)
    /\ matchedSlash st2
       = (if (ext_end st =? -1)%Z then false else matchedSlash st)
    /\ startDot st2
       = (if Ascii.eqb c "." && (startDot st =? -1)%Z then i else startDot st)
    /\ startPart st2 = startPart st
    /\ preDotState st2
       = (if Ascii.eqb c "."
          then if (startDot st =? -1)%Z then preDotState st else 1%Z
          else if (startDot st =? -1)%Z then preDotState st else (-1)%Z).
Proof.
  intros Sl. cbn [extname_loop]. rewrite Sl. eexists. split; [ reflexivity | ].
  destruct st as [ sd sp e m p ]. cbn [startDot startPart ext_end matchedSlash preDotState].
  destruct (e =? -1)%Z, (Ascii.eqb c "."), (sd =? -1)%Z eqn:D;
    cbn [startDot startPart ext_end matchedSlash preDotState negb andb];
    try rewrite D; cbn [negb];
    try (destruct (Z.eqb_spec p 1) as [ -> | ]);
    cbn [startDot startPart ext_end matchedSlash preDotState negb andb];
    repeat split; reflexivity.
Qed.



Lemma skipn_app_exact {A} (a b : list A) : skipn (List.length a) (a ++ b) = b.
Proof.
  induction a as [ | x a IH ]; simpl; [ reflexivity | exact IH ].
Qed.


(** ** A name with an extension *)

(** The loop goes over characters that are neither a dot nor a slash
    without a change once it is inside the last component and as long
    as it has met no dot. *)
Lemma extname_loop_plain (l rest : list ascii) :
  free_of "." l = true -> free_of "/" l = true ->
  forall (i : Z) (st : ext_state),
    startDot st = (-1)%Z -> ext_end st <> (-1)%Z ->
    extname_loop (l ++ rest) i st
    = extname_loop rest (i - Z.of_nat (List.length l))%Z st.
Proof.
  induction l as [ | c l IH ]; intros Hd Hs i st D E.
  - simpl. f_equal. lia.
  - simpl in Hd, Hs. apply andb_prop in Hd, Hs.
    destruct Hd as [Hc Hd], Hs as [Sc Hs].
    apply negb_true_iff in Hc, Sc.
    change ((c :: l) ++ rest) with (c :: l ++ rest).
    cbn [extname_loop]. rewrite Sc, Hc.
    destruct (Z.eqb_spec (ext_end st) (-1)) as [ | _ ]; [ contradiction | ].
    rewrite D. change ((-1 =? -1)%Z) with true. cbn [negb].
    rewrite (IH Hd Hs) by assumption. f_equal.
    simpl List.length. lia.
Qed.

Lemma extname_loop_settled (d e : Z) (rc : list ascii) :
  (0 <= d)%Z -> (0 <= e)%Z ->
  forall (i : Z) (st : ext_state),
    ext_settled d e st -> ext_settled d e (extname_loop rc i st).
Proof.
  intros Hd He. induction rc as [ | c rest IH ]; intros i st J; [ exact J | ].
  destruct (Ascii.eqb c "/") eqn:Sl.
  - cbn [extname_loop]. rewrite Sl.
    destruct J as (D & E & M & P). rewrite M. simpl negb. cbv iota.
    repeat split; assumption.
  - destruct (extname_loop_step c rest i st Sl)
      as (st2 & -> & E2 & M2 & D2 & _ & P2).
    apply IH. destruct J as (D & E & M & P).
    destruct (Z.eqb_spec (ext_end st) (-1)) as [ | _ ]; [ lia | ].
    destruct (Z.eqb_spec (startDot st) (-1)) as [ | _ ]; [ lia | ].
    rewrite andb_false_r in D2.
    repeat split; try congruence.
    rewrite P2. destruct (Ascii.eqb c "."); auto.
Qed.

Lemma list_ascii_of_string_String (c : ascii) (s : string) :
  list_ascii_of_string (String c s) = c :: list_ascii_of_string s.
Proof. reflexivity. Qed.

(** The extension of [base.ext]: the dot and [ext], as soon as [ext]
    is not empty and has no dot and no slash, and [base] ends with a
    character that is not a slash. *)
Lemma path_extname_of (base0 : string) (c0 : ascii) (ext : string) :
  Ascii.eqb c0 "/" = false ->
  ext <> "" -> no_dot ext = true -> no_slash ext = true ->
  path_extname (base0 ++ String c0 (String "." ext)) = String "." ext.
Proof.
  intros Sc Ne Hd Hs. unfold path_extname.
  rewrite list_ascii_of_string_app, !list_ascii_of_string_String.
  set (b := list_ascii_of_string base0).
  set (x := list_ascii_of_string ext).
  assert (Nx : x <> []).
  { subst x. destruct ext; [ now elim Ne | discriminate ]. }
  rewrite rev_app_distr. simpl rev. rewrite <- !app_assoc. simpl app.
  rewrite length_app. simpl List.length.
  (* the last character *)
  destruct (rev x) as [ | c l ] eqn:R.
  { apply (f_equal (@rev ascii)) in R. rewrite rev_involutive in R.
    now elim Nx. }
  assert (Fd : free_of "." (c :: l) = true)
    by (rewrite <- R; unfold free_of; rewrite forallb_rev; exact Hd).
  assert (Fs : free_of "/" (c :: l) = true)
    by (rewrite <- R; unfold free_of; rewrite forallb_rev; exact Hs).
  assert (Lx : List.length x = S (List.length l))
    by (rewrite <- (length_rev x), R; reflexivity).
  simpl in Fd, Fs. apply andb_prop in Fd, Fs.
  destruct Fd as [Dc Dl], Fs as [Sc' Sl]. apply negb_true_iff in Dc, Sc'.
  set (n := Z.of_nat (List.length b + S (S (List.length x)))).
  change ((c :: l) ++ "."%char :: c0 :: rev b)
    with (c :: l ++ "."%char :: c0 :: rev b).
  destruct (extname_loop_step c (l ++ "."%char :: c0 :: rev b) (n - 1)
              ext_initial Sc') as (s1 & -> & E1 & M1 & D1 & _ & P1).
  rewrite Dc in D1, P1. simpl in E1, M1, D1, P1.
  rewrite (extname_loop_plain l _ Dl Sl) by (rewrite ?E1, ?D1; lia).
  (* the dot *)
  destruct (extname_loop_step "." (c0 :: rev b)
              (n - 1 - 1 - Z.of_nat (List.length l)) s1 eq_refl)
    as (s2 & -> & E2 & M2 & D2 & _ & P2).
  rewrite E1, D1 in *. rewrite M1 in M2. rewrite P1 in P2.
  change ((-1 =? -1)%Z) with true in *.
  destruct (Z.eqb_spec (n - 1 + 1) (-1)) as [ | _ ]; [ lia | ].
  simpl in D2, P2.
  (* the character before the dot *)
  destruct (extname_loop_step c0 (rev b)
              (n - 1 - 1 - Z.of_nat (List.length l) - 1) s2 Sc)
    as (s3 & -> & E3 & M3 & D3 & _ & P3).
  rewrite E2, D2 in *. rewrite M2 in M3. rewrite P2 in P3.
  destruct (Z.eqb_spec (n - 1 + 1) (-1)) as [ | _ ]; [ lia | ].
  destruct (Z.eqb_spec (n - 1 - 1 - Z.of_nat (List.length l)) (-1))
    as [ | _ ]; [ lia | ].
  rewrite andb_false_r in D3.
  (* the rest *)
  pose proof (extname_loop_settled
                (n - 1 - 1 - Z.of_nat (List.length l)) (n - 1 + 1) (rev b)
                ltac:(lia) ltac:(lia)
                (n - 1 - 1 - Z.of_nat (List.length l) - 1 - 1) s3) as J.
  destruct J as (D & E & M & P).
  { repeat split; try assumption.
    rewrite P3. destruct (Ascii.eqb c0 "."); auto. }
  set (st := extname_loop _ _ s3) in *.
  rewrite D, E.
  destruct (Z.eqb_spec (n - 1 - 1 - Z.of_nat (List.length l)) (-1))
    as [ | _ ]; [ lia | ].
  destruct (Z.eqb_spec (n - 1 + 1) (-1)) as [ | _ ]; [ lia | ].
  destruct (Z.eqb_spec (preDotState st) 0) as [ | _ ]; [ lia | ].
  destruct (Z.eqb_spec (n - 1 - 1 - Z.of_nat (List.length l)) (n - 1 + 1 - 1))
    as [ | _ ]; [ lia | ].
  rewrite andb_false_r. simpl orb. cbv iota.
  unfold slice. rewrite list_ascii_of_string_app, !list_ascii_of_string_String.
  fold b x.
  replace (Z.to_nat (n - 1 - 1 - Z.of_nat (List.length l)))
    with (List.length (b ++ [c0])) by (rewrite length_app; simpl; lia).
  replace (Z.to_nat (n - 1 + 1 - (n - 1 - 1 - Z.of_nat (List.length l))))
    with (List.length ("."%char :: x)) by (simpl List.length; lia).
  change (b ++ c0 :: "."%char :: x) with (b ++ [c0] ++ "."%char :: x).
  rewrite app_assoc, skipn_app_exact.
  rewrite firstn_all.
  simpl. subst x. now rewrite string_of_list_ascii_of_string.
Qed.

End ExtnameFacts.

(* ================================================================== *)
(** * server.js: the stored name, the filter, the errors, the upload *)
(* ================================================================== *)

Module ServerFacts.
Import JS Node Notions Payload NumberFacts StringFacts ReportFacts.
Import PathFacts PipelineFacts ExtnameFacts.









(** X15.  An original name [base.ext], where [ext] is not empty and
    has no dot and no slash and a character other than a slash comes
    before the dot, is stored under a name that ends with [.ext]. *)
Theorem stored_name_keeps_extension (fieldname base : string) (c : ascii)
    (ext : string) (now : Z) (random : Q) :
  Ascii.eqb c "/" = false ->
  ext <> "" -> no_dot ext = true -> no_slash ext = true ->
  Server.storage_filename fieldname (base ++ String c (String "." ext)) now random
  = (fieldname ++ "-" ++ Server.uniqueSuffix now random ++ "." ++ ext)%string.
Proof.
  intros Sc Ne Hd Hs. unfold Server.storage_filename.
  now rewrite (path_extname_of base c ext Sc Ne Hd Hs).
Qed.

(** X15 for [my.holiday.MOV]. *)
Lemma stored_name_keeps_extension_witness :
  Server.storage_filename "video" "my.holiday.MOV" 1700000000000 (1 # 4)
  = "video-1700000000000-250000000.MOV".
Proof.
  apply (stored_name_keeps_extension "video" "my.holida" "y" "MOV"
           1700000000000 (1 # 4));
    [ reflexivity | discriminate | reflexivity | reflexivity ].
Defined.





(** X17.  The filter accepts exactly the six listed types, all of them
    [video/...]; for any other type it hands an error to the error
    middleware, which answers it with status 500 and the message
    [Invalid file type. Only video files are allowed.] *)
Theorem refused_type_answer (mimetype : string) :
  (Server.fileFilter mimetype = Server.Accepted
   <-> In mimetype Server.allowedMimes)
  /\ (In mimetype Server.allowedMimes -> String.prefix "video/" mimetype = true)
  /\ (~ In mimetype Server.allowedMimes ->
      exists e,
        Server.fileFilter mimetype = Server.Refused e
        /\ Server.error_middleware (Server.raised e)
           = (500%Z, "Invalid file type. Only video files are allowed.")).
Proof.
  assert (X : existsb (String.eqb mimetype) Server.allowedMimes = true
              <-> In mimetype Server.allowedMimes).
  { rewrite existsb_exists. split.
    - intros (x & I & E). apply String.eqb_eq in E. now subst.
    - intros I. exists mimetype. split; [ exact I | apply String.eqb_refl ]. }
  unfold Server.fileFilter.
  destruct (existsb (String.eqb mimetype) Server.allowedMimes) eqn:B.
  - repeat split.
    + intros _. now apply X.
    + intros I. simpl in I.
      repeat (destruct I as [ <- | I ]; [ reflexivity | ]). contradiction.
    + intros N. elim N. now apply X.
  - repeat split.
    + discriminate.
    + intros I. apply X in I. discriminate I.
    + intros I. simpl in I.
      repeat (destruct I as [ <- | I ]; [ reflexivity | ]). contradiction.
    + intros _. eexists. split; reflexivity.
Qed.


Lemma server_settled_getVideoInfo (w : World) (inputPath : string) :
  settled (Server.getVideoInfo w inputPath)
  = Server.getVideoInfo_on_close
      (fst (child w "ffprobe" (Server.ffprobeArgs inputPath)))
      (snd (child w "ffprobe" (Server.ffprobeArgs inputPath))).
Proof.
  unfold Server.getVideoInfo.
  destruct (child w "ffprobe" (Server.ffprobeArgs inputPath)); reflexivity.
Qed.

(** X19.  An upload that carries a file is answered with the success
    answer whatever the machine does afterwards; an extraction is
    started exactly when ffprobe exits with 0 and its report can be
    read, and it is then the extraction of the stored file into
    [./frames]. *)
Theorem upload_answer_and_extraction (w : World) (f : Server.File) :
  fst (fst (Server.upload w (Some f))) = Server.Uploaded f
  /\ (snd (Server.upload w (Some f)) <> None
      <-> is_zero_code
            (fst (child w "ffprobe" (Server.ffprobeArgs (Server.path f))))
          = true
          /\ exists info,
               Server.read_info
                 (snd (child w "ffprobe" (Server.ffprobeArgs (Server.path f))))
               = Normal info)
  /\ (forall run,
        snd (Server.upload w (Some f)) = Some run ->
        exists info,
          settled (Server.getVideoInfo w (Server.path f)) = Resolved info
          /\ run = Server.extractFrames w (Server.path f) "./frames"
                     (Some (Server.totalFrames info))).
Proof.
  unfold Server.upload. cbn [fst snd].
  split; [ reflexivity | ].
  rewrite server_settled_getVideoInfo. unfold Server.getVideoInfo_on_close.
  destruct (is_zero_code _); simpl negb; cbv iota.
  - destruct (Server.read_info _) as [ info | x ].
    + split.
      * split; [ intros _; split; [ reflexivity | now exists info ] | discriminate ].
      * intros run [= <-]. exists info. split; reflexivity.
    + split.
      * split; [ intros N; now elim N | intros [_ [info H]]; discriminate H ].
      * discriminate.
  - split.
    + split; [ intros N; now elim N | intros [H _]; discriminate H ].
    + discriminate.
Qed.

End ServerFacts.
